(** * GeminiSpeak: the relay service (chatbot.py) and the client shell
      (streamlit.py), embedded and checked against their specification.

    Python values are modelled as the two programs use them:
    - a [str] is a sequence of Unicode code points ([len] counts them);
    - a parsed JSON body is a value of [json], a Python [dict] being a
      finite map from [str] keys;
    - the objects of the upstream SDK and of the HTTP client are records of
      the attributes and methods the code reads, their answers being
      supplied by the environment;
    - an exception is a constructor of an enumeration of the classes the
      [except] clauses tell apart. *)

From Stdlib Require Import ZArith String Ascii.
From stdpp Require Import base option list gmap.

Local Open Scope Z_scope.

(** ** Python strings *)

Module Py.

(** A code point. *)
Definition char := N.

Definition str := list char.

(** A literal of the source, written in ASCII. *)
Definition lit (s : string) : str :=
  map N_of_ascii (list_ascii_of_string s).

(** [len(s)] *)
Definition len (s : str) : Z := Z.of_nat (length s).

(** The code points [str.isspace] accepts, one at a time (CPython's
    [_PyUnicode_IsWhitespace]): these are what [str.strip()] removes. *)
Definition isspace (c : char) : bool :=
  ((9 <=? c) && (c <=? 13) || (28 <=? c) && (c <=? 32)
   || (c =? 133) || (c =? 160) || (c =? 5760)
   || (8192 <=? c) && (c <=? 8202)
   || (c =? 8232) || (c =? 8233) || (c =? 8239) || (c =? 8287)
   || (c =? 12288))%N.

Fixpoint lstrip (s : str) : str :=
  match s with
  | c :: s' => if isspace c then lstrip s' else s
  | [] => []
  end.

Definition rstrip (s : str) : str := rev (lstrip (rev s)).

(** [s.strip()] *)
Definition strip (s : str) : str := rstrip (lstrip s).

(** Truth value of a string: [bool(s)]. *)
Definition truthy (s : str) : bool :=
  match s with [] => false | _ => true end.

(** The message is empty or made of white space only. *)
Definition all_whitespace (s : str) : bool := forallb isspace s.

End Py.

(** ** The relay service: chatbot.py *)

Module Relay.
Import Py.

(** *** Request and response models *)

Record ChatPart := { text : str }.

Record ChatMessage := { role : str; parts : list ChatPart }.

Record ChatRequest := { message : str; chat_history : list ChatMessage }.

Record ChatResponse := { ai_message : str }.

(** [Field(..., min_length=1, max_length=1000)] on [ChatRequest.message]:
    the only constraint of the schema beyond the field types. *)
Definition min_length : Z := 1.
Definition max_length : Z := 1000.

Definition schema_ok (request : ChatRequest) : bool :=
  (min_length <=? len (message request)) && (len (message request) <=? max_length).

(** *** The upstream SDK, as the handler sees it *)

(** The dictionaries the handler builds for [start_chat]:
    [{"role": ..., "parts": [{"text": ...}, ...]}]. *)
Record FormattedPart := { f_text : str }.

Record FormattedMessage := { f_role : str; f_parts : list FormattedPart }.

(** The reply of [send_message_async], down to the attributes read. An
    absent (falsy) [content] is [None]. *)
Record Part := { part_text : str }.

Record Content := { content_parts : list Part }.

Record Candidate := { content : option Content }.

Record GenerateContentResponse := { candidates : list Candidate }.

(** The exceptions the [except] clauses tell apart. [BlockedPromptException]
    and [Exception] carry their [str(e)]; an [APIError] carries its
    [message] and, when it has one ([hasattr(e, 'status_code')]), its
    [status_code]. *)
Inductive exn :=
| BlockedPromptException (s : str)
| APIError (status_code : option Z) (message : str)
| Exception (s : str).

(** [convo] and [model]: objects whose methods answer or raise as the
    environment decides. *)
Record ChatSession :=
  { send_message_async : str -> exn + GenerateContentResponse }.

Record GenerativeModel :=
  { start_chat : list FormattedMessage -> exn + ChatSession }.

(** The calls made on the upstream SDK, in the order they are made. *)
Inductive UpstreamCall :=
| StartChat (history : list FormattedMessage)
| SendMessage (content : str).

(** *** A computation that calls upstream and may raise *)

Definition M (A : Type) : Type := list UpstreamCall * (exn + A).

#[export] Instance M_ret : MRet M := fun A a => ([], inr a).

#[export] Instance M_bind : MBind M := fun A B f m =>
  match m with
  | (calls, inl e) => (calls, inl e)
  | (calls, inr a) => let (calls', r) := f a in (calls ++ calls', r)
  end.

Definition call_start_chat (model : GenerativeModel)
    (history : list FormattedMessage) : M ChatSession :=
  ([StartChat history], start_chat model history).

Definition call_send_message_async (convo : ChatSession) (content : str)
    : M GenerateContentResponse :=
  ([SendMessage content], send_message_async convo content).

(** *** The handler *)

Record HTTPException := { status_code : Z; detail : str }.

Definition HTTP_400_BAD_REQUEST : Z := 400.
Definition HTTP_500_INTERNAL_SERVER_ERROR : Z := 500.

(** How a call of the handler ends. *)
Inductive result :=
| Return (response : ChatResponse)
| Raise (e : HTTPException)
| Propagate (e : exn).

(** [[{"text": part.text} for part in msg.parts]] and the dictionary around it. *)
Definition format_message (msg : ChatMessage) : FormattedMessage :=
  {| f_role := role msg;
     f_parts := map (fun part => {| f_text := text part |}) (parts msg) |}.

(** The loop over [request.chat_history]: one [append] per message. *)
Definition format_history (chat_history : list ChatMessage)
    : list FormattedMessage :=
  fold_left (fun formatted_history msg => formatted_history ++ [format_message msg])
            chat_history [].

Definition fallback_text : str :=
  lit "Sorry, I couldn't generate a coherent response.".

(** [response.candidates and response.candidates[0].content and
    response.candidates[0].content.parts], then [parts[0].text]. *)
Definition response_text (response : GenerateContentResponse) : str :=
  match candidates response !! 0%nat with
  | Some candidate =>
      match content candidate with
      | Some c =>
          match content_parts c !! 0%nat with
          | Some part => part_text part
          | None => fallback_text
          end
      | None => fallback_text
      end
  | None => fallback_text
  end.

(** The reply has no candidates, or its first candidate has no content or
    no parts. *)
Definition nothing_to_read (response : GenerateContentResponse) : Prop :=
  candidates response = []
  \/ exists candidate rest,
       candidates response = candidate :: rest
       /\ (content candidate = None
           \/ exists c, content candidate = Some c /\ content_parts c = []).

(** The body of the [try]. *)
Definition try_body (model : GenerativeModel) (request : ChatRequest)
    : M ChatResponse :=
  let formatted_history := format_history (chat_history request) in
  convo ← call_start_chat model formatted_history;
  response ← call_send_message_async convo (message request);
  mret {| ai_message := response_text response |}.

(** The [try] body ends in an [APIError] that has no [status_code]. *)
Definition raises_api_error_without_status (model : GenerativeModel)
    (request : ChatRequest) : Prop :=
  exists calls msg, try_body model request = (calls, inl (APIError None msg)).

(** The three [except] clauses, tried in the order of the source. In the
    second one the log line reads [e.status_code] before the [hasattr]
    test is reached: without the attribute the [AttributeError] it raises
    leaves the handler. *)
Definition except_clauses (e : exn) : result :=
  match e with
  | BlockedPromptException s =>
      Raise {| status_code := HTTP_400_BAD_REQUEST;
               detail := lit "Your prompt was blocked by safety settings. Please try rephrasing: " ++ s |}
  | APIError sc msg =>
      match sc with
      | None => Propagate (Exception (lit "'APIError' object has no attribute 'status_code'"))
      | Some _ =>
          Raise {| status_code := match sc with
                                  | Some c => c
                                  | None => HTTP_500_INTERNAL_SERVER_ERROR
                                  end;
                   detail := lit "Gemini API error: " ++ msg |}
      end
  | Exception s =>
      Raise {| status_code := HTTP_500_INTERNAL_SERVER_ERROR;
               detail := lit "An unexpected internal server error occurred: " ++ s |}
  end.

(** [chat_with_gemini], for the module-level [model] ([None] when its
    initialisation failed at start-up). *)
Definition chat_with_gemini (model : option GenerativeModel)
    (request : ChatRequest) : result * list UpstreamCall :=
  match model with
  | None =>
      (Raise {| status_code := HTTP_500_INTERNAL_SERVER_ERROR;
                detail := lit "Gemini model not initialized. Backend service unavailable." |},
       [])
  | Some m =>
      if negb (truthy (strip (message request))) then
        (Raise {| status_code := HTTP_400_BAD_REQUEST;
                  detail := lit "Message cannot be empty." |}, [])
      else
        match try_body m request with
        | (calls, inr response) => (Return response, calls)
        | (calls, inl e) => (except_clauses e, calls)
        end
  end.

(** *** The endpoint POST /chat

    FastAPI validates the body against [ChatRequest] before it calls the
    handler; a body that fails is answered 422 and the handler does not run. *)
Inductive reply :=
| RequestValidationError
| Handled (r : result).

Definition post_chat (model : option GenerativeModel) (request : ChatRequest)
    : reply * list UpstreamCall :=
  if schema_ok request then
    let (r, calls) := chat_with_gemini model request in (Handled r, calls)
  else (RequestValidationError, []).

(** The status line of the answer: 200 for a returned model, the status of
    the [HTTPException], 500 for an exception nobody caught. *)
Definition http_status (r : reply) : Z :=
  match r with
  | RequestValidationError => 422
  | Handled (Return _) => 200
  | Handled (Raise e) => status_code e
  | Handled (Propagate _) => 500
  end.

(** *** The error taxonomy of the specification, by [raise] site *)

Inductive ErrorKind :=
| ServiceUnavailable
| InvalidInput
| UpstreamBlocked
| UpstreamError
| InternalError.

Inductive classified : HTTPException -> ErrorKind -> Prop :=
| classified_unavailable :
    classified {| status_code := 500;
                  detail := lit "Gemini model not initialized. Backend service unavailable." |}
               ServiceUnavailable
| classified_invalid :
    classified {| status_code := 400; detail := lit "Message cannot be empty." |}
               InvalidInput
| classified_blocked s :
    classified {| status_code := 400;
                  detail := lit "Your prompt was blocked by safety settings. Please try rephrasing: " ++ s |}
               UpstreamBlocked
| classified_upstream c msg :
    classified {| status_code := c; detail := lit "Gemini API error: " ++ msg |}
               UpstreamError
| classified_internal s :
    classified {| status_code := 500;
                  detail := lit "An unexpected internal server error occurred: " ++ s |}
               InternalError.

End Relay.

(** ** The client shell: streamlit.py *)

Module Shell.
Import Py.

(** *** Values *)

(** A parsed JSON document, as [response.json()] returns it. *)
#[local] Set Warnings "-register-all".
Inductive json :=
| JNull
| JBool (b : bool)
| JInt (n : Z)
| JFloat (repr : str)
| JString (s : str)
| JArray (items : list json)
| JObject (fields : gmap str json).
#[local] Set Warnings "register-all".

(** An entry of [st.session_state.messages]:
    [{"role": ..., "content": ...}]. The content is the prompt or whatever
    the relay's body held under ["ai_message"]. *)
Record Message := { role : str; content : json }.

(** [st.session_state]: the conversation (its absence at the first run is
    the empty list lines 63-64 make of it) and the [thinking] key, absent
    until first written. *)
Record SessionState := { messages : list Message; thinking : option bool }.

(** The body posted to the relay. *)
Record ApiPart := { text : json }.

Record ApiTurn := { api_role : str; parts : list ApiPart }.

Record Payload := { message : str; chat_history : list ApiTurn }.

(** What [requests] hands back: the status line, the body as text and the
    body as [response.json()] reads it ([None]: not JSON). *)
Record Response :=
  { status_code : Z; body_text : str; body_json : option json }.

(** The exception classes the [except] clauses tell apart; [Exception]
    stands for any other subclass of [Exception] and carries its [str(e)].
    [RerunException] is what [st.rerun()] raises to stop the script: it is
    no subclass of [Exception]. *)
Inductive exn :=
| ConnectionError
| Timeout
| HTTPError (response : Response)
| JSONDecodeError
| Exception (s : str)
| RerunException.

(** The texts shown by [st.error] and [st.warning], by template. *)
Inductive Notice :=
| ConnectionErrorNotice
| RequestTimeoutNotice
| BadRequest400 (error_detail : json)
| NotFound404 (error_detail : json)
| InternalServerError500 (error_detail : json)
| HTTPErrorNotice (status_code : Z) (error_detail : json)
| InvalidResponseNotice
| UnexpectedErrorNotice (e : str).

(** What the script does to the outside, in order. *)
Inductive Event :=
| ChatMessageShown (role : str) (content : json)
| SpinnerShown
| Posted (payload : Payload)
| ErrorShown (n : Notice)
| WarningShown (n : Notice)
| Rerun.

(** *** The script as a computation

    One run of the script acts on the session state, leaves a trace of
    events and ends normally or by an exception. State written before an
    exception is raised stays written. *)

Record World := { session : SessionState; events : list Event }.

Definition M (A : Type) : Type := World -> World * (exn + A).

#[export] Instance M_ret : MRet M := fun A a w => (w, inr a).

#[export] Instance M_bind : MBind M := fun A B f m w =>
  match m w with
  | (w', inl e) => (w', inl e)
  | (w', inr a) => f a w'
  end.

Definition raise {A} (e : exn) : M A := fun w => (w, inl e).

(** [try: body except ...: handler]: [clauses e] is the handler of the
    first clause that matches [e], if one does. An exception raised by a
    handler is not offered to the other clauses. *)
Definition try_except {A} (body : M A) (clauses : exn -> option (M A)) : M A :=
  fun w =>
    match body w with
    | (w', inl e) =>
        match clauses e with
        | Some handler => handler w'
        | None => (w', inl e)
        end
    | (w', inr a) => (w', inr a)
    end.

(** [try: body finally: final]: [final] runs however [body] ends; an
    exception it raises replaces the outcome of [body]. *)
Definition try_finally {A} (body : M A) (final : M unit) : M A :=
  fun w =>
    let (w', r) := body w in
    match final w' with
    | (w'', inl e) => (w'', inl e)
    | (w'', inr _) => (w'', r)
    end.

Definition emit (ev : Event) : M unit := fun w =>
  ({| session := session w; events := events w ++ [ev] |}, inr tt).

Definition get_messages : M (list Message) := fun w =>
  (w, inr (messages (session w))).

Definition get_thinking : M bool := fun w =>
  (w, inr (default false (thinking (session w)))).

Definition set_messages (l : list Message) : M unit := fun w =>
  ({| session := {| messages := l; thinking := thinking (session w) |};
      events := events w |}, inr tt).

(** [st.session_state.messages.append(m)] *)
Definition append_message (m : Message) : M unit :=
  l ← get_messages; set_messages (l ++ [m]).

(** [st.session_state.thinking = b] *)
Definition set_thinking (b : bool) : M unit := fun w =>
  ({| session := {| messages := messages (session w); thinking := Some b |};
      events := events w |}, inr tt).

(** [st.rerun()] *)
Definition st_rerun : M unit := _ ← emit Rerun; raise RerunException.

(** [with st.chat_message(role): st.markdown(...)] *)
Definition show_chat_message (role : str) (content : json) : M unit :=
  emit (ChatMessageShown role content).

(** *** The network, seen from the shell *)

(** [requests.post(CHAT_ENDPOINT, json=payload, timeout=60)]: the
    environment answers with a response or an exception. *)
Definition Network : Type := Payload -> exn + Response.

Definition requests_post (net : Network) (payload : Payload) : M Response :=
  _ ← emit (Posted payload);
  match net payload with
  | inl e => raise e
  | inr response => mret response
  end.

(** [response.raise_for_status()] *)
Definition raise_for_status (response : Response) : M unit :=
  if (400 <=? status_code response) && (status_code response <? 600)
  then raise (HTTPError response)
  else mret tt.

(** [response.json()] *)
Definition response_json (response : Response) : M json :=
  match body_json response with
  | Some j => mret j
  | None => raise JSONDecodeError
  end.

(** [d.get(key, dflt)]: only a [dict] has the method. *)
Definition dict_get (d : json) (key : str) (dflt : json) : M json :=
  match d with
  | JObject fields => mret (default dflt (fields !! key))
  | _ => raise (Exception (lit "object has no attribute 'get'"))
  end.

(** *** The submission block: [if prompt:] *)

Definition user : str := lit "user".
Definition assistant : str := lit "assistant".

Definition no_clear_response : str :=
  lit "Sorry, I couldn't get a clear response from Gemini.".

(** Step 2, the loop that fills [chat_history_for_api]. *)
Definition prepare_chat_history (msgs : list Message) : list ApiTurn :=
  fold_left
    (fun chat_history_for_api msg =>
       if bool_decide (role msg ∈ [user; assistant]) then
         chat_history_for_api ++
           [{| api_role := role msg; parts := [{| text := content msg |}] |}]
       else chat_history_for_api)
    msgs [].

(** The body of the [try]. *)
Definition try_body (net : Network) (prompt : str)
    (chat_history_for_api : list ApiTurn) : M unit :=
  _ ← set_thinking true;
  _ ← emit SpinnerShown;
  response ← requests_post net
    {| message := prompt; chat_history := chat_history_for_api |};
  _ ← raise_for_status response;
  ai_response_data ← response_json response;
  ai_message ← dict_get ai_response_data (lit "ai_message")
                        (JString no_clear_response);
  _ ← append_message {| role := assistant; content := ai_message |};
  show_chat_message assistant ai_message.

(** The handler of [except requests.exceptions.HTTPError as e]. *)
Definition on_http_error (response : Response) : M unit :=
  let status := status_code response in
  let error_detail := JString (lit "An unknown error occurred.") in
  error_detail ←
    try_except
      (error_json ← response_json response;
       dict_get error_json (lit "detail") error_detail)
      (fun e => match e with
                | JSONDecodeError => Some (mret (JString (body_text response)))
                | _ => None
                end);
  if status =? 400 then emit (WarningShown (BadRequest400 error_detail))
  else if status =? 404 then emit (ErrorShown (NotFound404 error_detail))
  else if status =? 500 then emit (ErrorShown (InternalServerError500 error_detail))
  else emit (ErrorShown (HTTPErrorNotice status error_detail)).

(** The five [except] clauses, in the order of the source. *)
Definition except_clauses (e : exn) : option (M unit) :=
  match e with
  | ConnectionError => Some (emit (ErrorShown ConnectionErrorNotice))
  | Timeout => Some (emit (ErrorShown RequestTimeoutNotice))
  | HTTPError response => Some (on_http_error response)
  | JSONDecodeError => Some (emit (ErrorShown InvalidResponseNotice))
  | Exception s => Some (emit (ErrorShown (UnexpectedErrorNotice s)))
  | RerunException => None
  end.

(** The [finally] block. *)
Definition finally_block : M unit :=
  _ ← set_thinking false; st_rerun.

(** Step 1: the prompt joins the conversation and is shown. *)
Definition add_user_message (prompt : str) : M unit :=
  _ ← append_message {| role := user; content := JString prompt |};
  show_chat_message user (JString prompt).

Definition on_prompt (net : Network) (prompt : str) : M unit :=
  _ ← add_user_message prompt;
  msgs ← get_messages;
  let chat_history_for_api := prepare_chat_history msgs in
  try_finally
    (try_except (try_body net prompt chat_history_for_api) except_clauses)
    finally_block.

(** *** One run of the script *)

(** What the user and the network bring to a run: whether Clear Chat was
    pressed, the text submitted in the chat input (if any) and the relay's
    behaviour. *)
Record Input :=
  { clear_chat : bool; chat_input : option str; network : Network }.

Fixpoint display (msgs : list Message) : M unit :=
  match msgs with
  | [] => mret tt
  | m :: rest => _ ← show_chat_message (role m) (content m); display rest
  end.

Definition script (inp : Input) : M unit :=
  _ ← (if clear_chat inp then (_ ← set_messages []; st_rerun) else mret tt);
  msgs ← get_messages;
  _ ← display msgs;
  disabled ← get_thinking;
  match (if (disabled : bool) then None else chat_input inp) with
  | Some prompt => if truthy prompt then on_prompt (network inp) prompt else mret tt
  | None => mret tt
  end.

(** The session state a run leaves behind. *)
Definition run (s : SessionState) (inp : Input) : SessionState :=
  session (fst (script inp {| session := s; events := [] |})).

Definition initial : SessionState := {| messages := []; thinking := None |}.

(** The session after a sequence of runs, from a fresh session. *)
Definition session_after (inputs : list Input) : SessionState :=
  fold_left run inputs initial.

(** *** Reading the submission block

    Notions used to state what the block does. *)

Definition user_message (prompt : str) : Message :=
  {| role := user; content := JString prompt |}.

(** The body posted for [prompt] from the world [w]: the history is
    prepared after the prompt has joined the conversation. *)
Definition payload_of (w : World) (prompt : str) : Payload :=
  {| message := prompt;
     chat_history :=
       prepare_chat_history (messages (session w) ++ [user_message prompt]) |}.

(** What the [try] body makes of the relay's answer: the [ai_message] it
    will append, or the exception raised on the way
    ([requests.post], [raise_for_status], [response.json()], [.get]). *)
Definition relay_outcome (answer : exn + Response) : exn + json :=
  match answer with
  | inl e => inl e
  | inr response =>
      if (400 <=? status_code response) && (status_code response <? 600)
      then inl (HTTPError response)
      else
        match body_json response with
        | None => inl JSONDecodeError
        | Some (JObject fields) =>
            inr (default (JString no_clear_response) (fields !! lit "ai_message"))
        | Some _ => inl (Exception (lit "object has no attribute 'get'"))
        end
  end.

(** The ways a relay call fails: the call itself raises (connection
    refused, timeout, anything else), the status is 4xx or 5xx, the body is
    not JSON, or it is JSON but no object. *)
Inductive relay_call_fails : exn + Response -> Prop :=
| fails_raising e : relay_call_fails (inl e)
| fails_status response :
    400 <= status_code response < 600 -> relay_call_fails (inr response)
| fails_not_json response :
    body_json response = None -> relay_call_fails (inr response)
| fails_not_object response j :
    body_json response = Some j -> (forall fields, j <> JObject fields) ->
    relay_call_fails (inr response).

(** A computation that leaves the session state as it found it and only
    adds events to the trace. *)
Definition only_emits {A} (c : M A) : Prop :=
  forall w, session (fst (c w)) = session w
            /\ exists evs, events (fst (c w)) = events w ++ evs.

(** The roles the shell gives its turns. *)
Definition shell_role (m : Message) : Prop := role m = user \/ role m = assistant.

End Shell.

(** ** The rest of chatbot.py: start-up and GET /list_models *)

Module Service.
Import Py Relay.

(** *** Start-up (module level)

    [os.getenv("GEMINI_API_KEY")] is [None] when the variable is unset.
    [genai.configure] only records the key; [genai.GenerativeModel(...)]
    gives the model or raises. *)

Definition key_missing : str :=
  lit "GEMINI_API_KEY not found in environment variables. Please set it in your .env file.".

Inductive startup_result :=
| ValueError (msg : str)
| Started (GEMINI_API_KEY : str) (model : option GenerativeModel).

Definition startup (getenv : option str) (construct : exn + GenerativeModel)
    : startup_result :=
  match getenv with
  | None => ValueError key_missing
  | Some GEMINI_API_KEY =>
      if negb (truthy GEMINI_API_KEY) then ValueError key_missing
      else
        Started GEMINI_API_KEY
          match construct with
          | inr model => Some model
          | inl _ => None
          end
  end.

(** *** GET /list_models *)

(** A model as [genai.list_models()] yields it, down to the attributes read. *)
Record Model :=
  { name : str; display_name : str; supported_generation_methods : list str }.

(** An entry of the answer:
    [{"name": ..., "displayName": ..., "supported_methods": [...]}]. *)
Record ModelEntry :=
  { entry_name : str; displayName : str; supported_methods : list str }.

(** What iterating [genai.list_models()] does: it yields some models and
    then ends, or raises an exception (given by its [str(e)]) after them. *)
Record Listing := { yielded : list Model; raised : option str }.

(** The loop, over the models yielded. *)
Definition collect (models : list Model) : list ModelEntry :=
  fold_left
    (fun available_models m =>
       if bool_decide (lit "generateContent" ∈ supported_generation_methods m)
       then available_models ++
              [{| entry_name := name m;
                  displayName := display_name m;
                  supported_methods := supported_generation_methods m |}]
       else available_models)
    models [].

(** [list_available_models], for the module-level [GEMINI_API_KEY]; the
    answer is [{"models": available_models}]. *)
Definition list_available_models (GEMINI_API_KEY : option str)
    (listing : Listing) : HTTPException + list ModelEntry :=
  if negb (from_option truthy false GEMINI_API_KEY) then
    inl {| status_code := HTTP_500_INTERNAL_SERVER_ERROR;
           detail := lit "GEMINI_API_KEY not set." |}
  else
    let available_models := collect (yielded listing) in
    match raised listing with
    | Some e =>
        inl {| status_code := HTTP_500_INTERNAL_SERVER_ERROR;
               detail := lit "Error listing models: " ++ e |}
    | None => inr available_models
    end.

(** The entry made of a model. *)
Definition entry_of (m : Model) : ModelEntry :=
  {| entry_name := name m;
     displayName := display_name m;
     supported_methods := supported_generation_methods m |}.

Definition generates_content (m : Model) : Prop :=
  lit "generateContent" ∈ supported_generation_methods m.

End Service.

(** ** Reading the trace of the shell *)

Module ShellTrace.
Import Py Shell.

Definition is_post (ev : Event) : bool :=
  match ev with Posted _ => true | _ => false end.

Definition is_notice (ev : Event) : bool :=
  match ev with ErrorShown _ | WarningShown _ => true | _ => false end.

(** The [if]/[elif] chain of the [HTTPError] clause: what is shown for a
    status and a detail. *)
Definition http_notice (status : Z) (error_detail : json) : Event :=
  if status =? 400 then WarningShown (BadRequest400 error_detail)
  else if status =? 404 then ErrorShown (NotFound404 error_detail)
  else if status =? 500 then ErrorShown (InternalServerError500 error_detail)
  else ErrorShown (HTTPErrorNotice status error_detail).

(** The detail the [HTTPError] clause reads from the answer: the text of
    a body that is not JSON, the ["detail"] of a JSON object (or the
    stand-in), nothing for JSON that is no object ([.get] raises). *)
Definition error_detail_of (response : Response) : option json :=
  match body_json response with
  | None => Some (JString (body_text response))
  | Some (JObject fields) =>
      Some (default (JString (lit "An unknown error occurred."))
                    (fields !! lit "detail"))
  | Some _ => None
  end.

(** What the [except] clauses show for an exception of the [try] body. *)
Definition shown (e : exn) : list Event :=
  match e with
  | ConnectionError => [ErrorShown ConnectionErrorNotice]
  | Timeout => [ErrorShown RequestTimeoutNotice]
  | HTTPError response =>
      match error_detail_of response with
      | Some error_detail => [http_notice (status_code response) error_detail]
      | None => []
      end
  | JSONDecodeError => [ErrorShown InvalidResponseNotice]
  | Exception s => [ErrorShown (UnexpectedErrorNotice s)]
  | RerunException => []
  end.

(** The turn posted for a message of the conversation. *)
Definition api_turn (m : Message) : ApiTurn :=
  {| api_role := role m; parts := [{| text := content m |}] |}.

(** The events of the display loop. *)
Definition displayed (msgs : list Message) : list Event :=
  map (fun m => ChatMessageShown (role m) (content m)) msgs.

(** Every turn of the relay follows a turn of the user. *)
Definition replies_follow_prompts (msgs : list Message) : Prop :=
  forall i m, msgs !! i = Some m -> role m = assistant ->
    exists j p, i = S j /\ msgs !! j = Some p /\ role p = user.

End ShellTrace.

(** ** From the shell to the relay

    The JSON body the shell posts, read as the relay's [ChatRequest]: the
    fields are taken over as they are, and every text has to be a JSON
    string. *)

Module Wire.
Import Py.

Definition text_of (j : Shell.json) : option str :=
  match j with
  | Shell.JString s => Some s
  | _ => None
  end.

Definition part_of (p : Shell.ApiPart) : option Relay.ChatPart :=
  s ← text_of (Shell.text p); Some {| Relay.text := s |}.

Definition turn_of (t : Shell.ApiTurn) : option Relay.ChatMessage :=
  ps ← mapM part_of (Shell.parts t);
  Some {| Relay.role := Shell.api_role t; Relay.parts := ps |}.

Definition request_of (p : Shell.Payload) : option Relay.ChatRequest :=
  h ← mapM turn_of (Shell.chat_history p);
  Some {| Relay.message := Shell.message p; Relay.chat_history := h |}.

End Wire.

(** ** Sample environments

    Upstream models and requests used to run the relay on concrete inputs. *)

Module RelaySamples.
Import Py Relay.

(** An upstream that accepts any history and answers every message with
    [response]. *)
Definition answering (response : GenerateContentResponse) : GenerativeModel :=
  {| start_chat := fun _ =>
       inr {| send_message_async := fun _ => inr response |} |}.

(** An upstream whose [send_message_async] raises [e]. *)
Definition raising (e : exn) : GenerativeModel :=
  {| start_chat := fun _ =>
       inr {| send_message_async := fun _ => inl e |} |}.

Definition one_part (s : str) : GenerateContentResponse :=
  {| candidates :=
       [{| content := Some {| content_parts := [{| part_text := s |}] |} |}] |}.

Definition no_candidates : GenerateContentResponse := {| candidates := [] |}.

Definition turn (r : string) (s : string) : ChatMessage :=
  {| role := lit r; parts := [{| text := lit s |}] |}.

(** The history [U1, M1, U2] and the new message [U3]. *)
Definition three_turns : ChatRequest :=
  {| message := lit "U3";
     chat_history := [turn "user" "U1"; turn "model" "M1"; turn "user" "U2"] |}.

Definition hello : ChatRequest := {| message := lit "Hello"; chat_history := [] |}.

Definition empty_message : ChatRequest := {| message := []; chat_history := [] |}.

Definition blank_message : ChatRequest :=
  {| message := lit "   "; chat_history := [turn "user" "U1"] |}.

End RelaySamples.

Module ShellSamples.
Import Py Shell.

(** A relay that answers 200 with the JSON document [j]. *)
Definition relay_says (j : json) : Network := fun _ =>
  inr {| status_code := 200; body_text := []; body_json := Some j |}.

(** A relay call that raises [e]. *)
Definition relay_raises (e : exn) : Network := fun _ => inl e.

(** A relay that answers with status [code] and a body that is not JSON. *)
Definition relay_status (code : Z) (body : string) : Network := fun _ =>
  inr {| status_code := code; body_text := lit body; body_json := None |}.

(** [{"ai_message": s}] *)
Definition ai_reply (s : string) : json :=
  JObject {[ lit "ai_message" := JString (lit s) ]}.

Definition submit (prompt : string) (net : Network) : Input :=
  {| clear_chat := false; chat_input := Some (lit prompt); network := net |}.

Definition fresh : World := {| session := initial; events := [] |}.

End ShellSamples.

(** Further sample environments. *)

Module ExtraSamples.
Import Py.

(** An upstream answer of two candidates, the first with two parts. *)
Definition first_candidate : Relay.Candidate :=
  {| Relay.content :=
       Some {| Relay.content_parts :=
                 [{| Relay.part_text := lit "one" |};
                  {| Relay.part_text := lit "two" |}] |} |}.

Definition two_candidates : Relay.GenerateContentResponse :=
  {| Relay.candidates := [first_candidate; {| Relay.content := None |}] |}.

(** Three models, the second of which cannot generate content. *)
Definition flash : Service.Model :=
  {| Service.name := lit "models/gemini-2.0-flash";
     Service.display_name := lit "Gemini 2.0 Flash";
     Service.supported_generation_methods :=
       [lit "generateContent"; lit "countTokens"] |}.

Definition embedding : Service.Model :=
  {| Service.name := lit "models/embedding-001";
     Service.display_name := lit "Embedding 001";
     Service.supported_generation_methods := [lit "embedContent"] |}.

Definition pro : Service.Model :=
  {| Service.name := lit "models/gemini-pro";
     Service.display_name := lit "Gemini Pro";
     Service.supported_generation_methods := [lit "generateContent"] |}.

(** A session holding one exchange. *)
Definition one_exchange : Shell.SessionState :=
  Shell.session_after
    [ShellSamples.submit "Hello"
       (ShellSamples.relay_says (ShellSamples.ai_reply "Hi there!"))].

(** A relay that answers with status [code] and the JSON document [j]. *)
Definition relay_error (code : Z) (j : Shell.json) : Shell.Network := fun _ =>
  inr {| Shell.status_code := code; Shell.body_text := [];
         Shell.body_json := Some j |}.

End ExtraSamples.

(** * Properties *)

(** ** Python strings *)

Module PyFacts.
Import Py.

Lemma lstrip_nil_iff (s : str) : lstrip s = [] <-> all_whitespace s = true.
Proof.
  induction s as [|c s IH]; simpl; [tauto|].
  destruct (isspace c); simpl; [exact IH|].
  split; discriminate.
Qed.

Lemma rev_eq_nil {A} (l : list A) : rev l = [] <-> l = [].
Proof.
  split; [|intros ->; reflexivity].
  intros H. apply (f_equal (@rev A)) in H. now rewrite rev_involutive in H.
Qed.

Lemma strip_nil_iff (s : str) : strip s = [] <-> all_whitespace s = true.
Proof.
  unfold strip, rstrip.
  rewrite (rev_eq_nil (lstrip (rev (lstrip s)))), <- (lstrip_nil_iff s).
  split.
  - intros H. destruct (lstrip s) as [|c t] eqn:E; [reflexivity|].
    exfalso. apply lstrip_nil_iff in H. unfold all_whitespace in H.
    rewrite forallb_forall in H.
    assert (Hc : isspace c = true).
    { apply H. apply in_rev. rewrite rev_involutive. left. reflexivity. }
    clear H. induction s as [|d s IH]; simpl in E; [discriminate|].
    destruct (isspace d) eqn:Ed; [auto|]. congruence.
  - intros ->. reflexivity.
Qed.

(** [not s.strip()] *)
Lemma not_strip_iff (s : str) :
  negb (truthy (strip s)) = all_whitespace s.
Proof.
  destruct (all_whitespace s) eqn:E.
  - apply strip_nil_iff in E. now rewrite E.
  - destruct (strip s) eqn:Es; [|reflexivity].
    apply strip_nil_iff in Es. congruence.
Qed.

End PyFacts.

(** ** The relay service *)

Module RelayFacts.
Import Py PyFacts Relay.

(** The loop of the handler is a [map]: one formatted message per message
    of the history, in the same order. *)
Lemma format_history_acc (chat_history : list ChatMessage) acc :
  fold_left (fun formatted_history msg => formatted_history ++ [format_message msg])
            chat_history acc
  = acc ++ map format_message chat_history.
Proof.
  revert acc. induction chat_history as [|msg rest IH]; intros acc; simpl.
  - now rewrite app_nil_r.
  - rewrite IH, <- app_assoc. reflexivity.
Qed.

Lemma format_history_map (chat_history : list ChatMessage) :
  format_history chat_history = map format_message chat_history.
Proof. unfold format_history. now rewrite format_history_acc. Qed.

Lemma format_history_lookup (chat_history : list ChatMessage) (i : nat) :
  format_history chat_history !! i = format_message <$> chat_history !! i.
Proof. rewrite format_history_map. apply list_lookup_fmap. Qed.

Lemma format_message_parts_lookup (msg : ChatMessage) (j : nat) :
  f_text <$> f_parts (format_message msg) !! j = text <$> parts msg !! j.
Proof.
  unfold format_message; simpl.
  change (map ?f ?l) with (f <$> l).
  rewrite list_lookup_fmap. now destruct (parts msg !! j).
Qed.

(** The schema lets the handler run, or answers by itself. *)
Lemma post_chat_schema_ok model request :
  schema_ok request = true ->
  post_chat model request =
    (Handled (fst (chat_with_gemini model request)),
     snd (chat_with_gemini model request)).
Proof.
  intros H. unfold post_chat. rewrite H.
  now destruct (chat_with_gemini model request).
Qed.

Lemma post_chat_schema_fails model request :
  schema_ok request = false ->
  post_chat model request = (RequestValidationError, []).
Proof. intros H. unfold post_chat. now rewrite H. Qed.

Lemma schema_ok_iff request :
  schema_ok request = true <-> 1 <= len (message request) <= 1000.
Proof.
  unfold schema_ok, min_length, max_length.
  rewrite andb_true_iff, !Z.leb_le. tauto.
Qed.

(** What the handler does once the model is there and the message is not
    blank: the two upstream calls, and the outcome by their answers. *)
Lemma chat_with_gemini_calls m request :
  all_whitespace (message request) = false ->
  chat_with_gemini (Some m) request =
    let formatted_history := format_history (chat_history request) in
    match start_chat m formatted_history with
    | inl e => (except_clauses e, [StartChat formatted_history])
    | inr convo =>
        match send_message_async convo (message request) with
        | inl e =>
            (except_clauses e,
             [StartChat formatted_history; SendMessage (message request)])
        | inr response =>
            (Return {| ai_message := response_text response |},
             [StartChat formatted_history; SendMessage (message request)])
        end
    end.
Proof.
  intros Hws. unfold chat_with_gemini. rewrite not_strip_iff, Hws.
  unfold try_body, call_start_chat, call_send_message_async; simpl.
  unfold mbind, M_bind, mret, M_ret.
  destruct (start_chat m _) as [e|convo]; [reflexivity|].
  destruct (send_message_async convo _) as [e|response]; reflexivity.
Qed.

Lemma chat_with_gemini_blank m request :
  all_whitespace (message request) = true ->
  chat_with_gemini (Some m) request =
    (Raise {| status_code := 400; detail := lit "Message cannot be empty." |}, []).
Proof.
  intros Hws. unfold chat_with_gemini. now rewrite not_strip_iff, Hws.
Qed.

Lemma chat_with_gemini_no_model request :
  chat_with_gemini None request =
    (Raise {| status_code := 500;
              detail := lit "Gemini model not initialized. Backend service unavailable." |},
     []).
Proof. reflexivity. Qed.

(** *** Rejected messages *)

(** C2, as the code has it: a message that is empty or longer than 1000
    code points is stopped by the request schema before the handler runs;
    a blank message of 1 to 1000 code points reaches the handler, which
    answers 400 "Message cannot be empty." when the model is initialised
    and 500 when it is not. In each case no upstream call is made, whatever
    the history holds. *)
Theorem C2_rejected_without_upstream_call model request :
  all_whitespace (message request) = true \/ 1000 < len (message request) ->
  post_chat model request =
    (if schema_ok request then
       match model with
       | Some _ =>
           Handled (Raise {| status_code := 400;
                             detail := lit "Message cannot be empty." |})
       | None =>
           Handled (Raise {| status_code := 500;
                             detail := lit "Gemini model not initialized. Backend service unavailable." |})
       end
     else RequestValidationError,
     []).
Proof.
  intros H. destruct (schema_ok request) eqn:Hs.
  - rewrite post_chat_schema_ok by assumption.
    apply schema_ok_iff in Hs. destruct H as [Hws|Hlong]; [|lia].
    destruct model as [m|].
    + now rewrite chat_with_gemini_blank.
    + reflexivity.
  - now apply post_chat_schema_fails.
Qed.

Lemma C2_rejected_witness :
  post_chat (Some (RelaySamples.answering RelaySamples.no_candidates))
            RelaySamples.blank_message
  = (Handled (Raise {| status_code := 400;
                       detail := lit "Message cannot be empty." |}), []).
Proof.
  apply (C2_rejected_without_upstream_call
           (Some (RelaySamples.answering RelaySamples.no_candidates))
           RelaySamples.blank_message).
  left. reflexivity.
Defined.

(** C2 as stated fails twice over: an empty message gets the schema's 422,
    not 400, and a blank message sent while the model is missing gets 500. *)
Lemma C2_counterexample :
  len (message RelaySamples.empty_message) = 0
  /\ http_status
       (fst (post_chat (Some (RelaySamples.answering RelaySamples.no_candidates))
                       RelaySamples.empty_message)) = 422
  /\ all_whitespace (message RelaySamples.blank_message) = true
  /\ http_status (fst (post_chat None RelaySamples.blank_message)) = 500.
Proof. repeat split. Qed.

(** *** The model check comes first *)

(** C9, as the code has it: without a model the handler answers 500 to
    every request it is given, blank message or not, and calls nothing; at
    the endpoint a request that passes the schema gets that 500, one that
    does not (empty or over-long message) gets the schema's 422; 400 is
    never the answer. *)
Theorem C9_model_check_first request :
  chat_with_gemini None request =
    (Raise {| status_code := 500;
              detail := lit "Gemini model not initialized. Backend service unavailable." |},
     [])
  /\ post_chat None request =
       (if schema_ok request then
          Handled (Raise {| status_code := 500;
                            detail := lit "Gemini model not initialized. Backend service unavailable." |})
        else RequestValidationError, [])
  /\ http_status (fst (post_chat None request)) <> 400.
Proof.
  split; [reflexivity|].
  unfold post_chat. destruct (schema_ok request); simpl; split; (reflexivity || discriminate).
Qed.

(** C9 as stated fails for the empty message: the schema answers 422
    before the handler can answer 500. *)
Lemma C9_counterexample :
  message RelaySamples.empty_message = []
  /\ fst (post_chat None RelaySamples.empty_message) = RequestValidationError
  /\ http_status (fst (post_chat None RelaySamples.empty_message)) = 422.
Proof. repeat split. Qed.

(** *** Order of the turns presented upstream *)

(** C3: for a request the handler lets through, the history handed to
    [start_chat] has one [{role, parts: [{text}]}] entry per turn of
    [chat_history], at the same position, with the same role and the same
    texts in the same order; [start_chat] is called with it first, and the
    new message is then sent as the next turn. *)
Theorem C3_turn_order_preserved m request :
  schema_ok request = true ->
  all_whitespace (message request) = false ->
  let formatted_history := format_history (chat_history request) in
  length formatted_history = length (chat_history request)
  /\ (forall i msg, chat_history request !! i = Some msg ->
        exists formatted,
          formatted_history !! i = Some formatted
          /\ f_role formatted = role msg
          /\ map f_text (f_parts formatted) = map text (parts msg))
  /\ snd (post_chat (Some m) request) =
       match start_chat m formatted_history with
       | inr _ => [StartChat formatted_history; SendMessage (message request)]
       | inl _ => [StartChat formatted_history]
       end.
Proof.
  intros Hs Hws formatted_history. subst formatted_history.
  split; [|split].
  - rewrite format_history_map. apply length_map.
  - intros i msg Hi. exists (format_message msg). split; [|split].
    + rewrite format_history_lookup, Hi. reflexivity.
    + reflexivity.
    + unfold format_message; simpl. rewrite map_map. reflexivity.
  - rewrite post_chat_schema_ok by assumption. cbn [fst snd].
    rewrite chat_with_gemini_calls by assumption. cbn zeta.
    destruct (start_chat m _) as [e|convo]; [reflexivity|].
    destruct (send_message_async convo _); reflexivity.
Qed.

Lemma C3_turn_order_witness :
  snd (post_chat (Some (RelaySamples.answering (RelaySamples.one_part (lit "M2"))))
                 RelaySamples.three_turns)
  = [StartChat
       [{| f_role := lit "user"; f_parts := [{| f_text := lit "U1" |}] |};
        {| f_role := lit "model"; f_parts := [{| f_text := lit "M1" |}] |};
        {| f_role := lit "user"; f_parts := [{| f_text := lit "U2" |}] |}];
     SendMessage (lit "U3")].
Proof.
  apply (C3_turn_order_preserved
           (RelaySamples.answering (RelaySamples.one_part (lit "M2")))
           RelaySamples.three_turns); reflexivity.
Defined.

(** *** The fallback text *)

Lemma response_text_fallback response :
  nothing_to_read response -> response_text response = fallback_text.
Proof.
  unfold response_text.
  intros [H | (candidate & rest & H & [Hc | (c & Hc & Hp)])]; rewrite H; simpl.
  - reflexivity.
  - now rewrite Hc.
  - now rewrite Hc, Hp.
Qed.

(** C5: when upstream answers with nothing to read, the endpoint returns
    a [ChatResponse] holding the fallback text, and raises nothing. *)
Theorem C5_fallback_on_empty_reply m request convo response :
  schema_ok request = true ->
  all_whitespace (message request) = false ->
  start_chat m (format_history (chat_history request)) = inr convo ->
  send_message_async convo (message request) = inr response ->
  nothing_to_read response ->
  fst (post_chat (Some m) request) =
    Handled (Return {| ai_message :=
                         lit "Sorry, I couldn't generate a coherent response." |}).
Proof.
  intros Hs Hws Hstart Hsend Hnone.
  rewrite post_chat_schema_ok by assumption. cbn [fst snd].
  rewrite chat_with_gemini_calls by assumption. cbn zeta.
  rewrite Hstart, Hsend. simpl.
  now rewrite (response_text_fallback response Hnone).
Qed.

Lemma C5_fallback_witness :
  fst (post_chat (Some (RelaySamples.answering RelaySamples.no_candidates))
                 RelaySamples.hello)
  = Handled (Return {| ai_message :=
                         lit "Sorry, I couldn't generate a coherent response." |}).
Proof.
  apply (C5_fallback_on_empty_reply
           (RelaySamples.answering RelaySamples.no_candidates)
           RelaySamples.hello
           {| send_message_async := fun _ => inr RelaySamples.no_candidates |}
           RelaySamples.no_candidates); try reflexivity.
  left. reflexivity.
Defined.

(** *** Every valid request gets a reply or a classified error *)

Lemma relay_try_body_eq m request :
  try_body m request =
    let formatted_history := format_history (chat_history request) in
    match start_chat m formatted_history with
    | inl e => ([StartChat formatted_history], inl e)
    | inr convo =>
        match send_message_async convo (message request) with
        | inl e =>
            ([StartChat formatted_history; SendMessage (message request)], inl e)
        | inr response =>
            ([StartChat formatted_history; SendMessage (message request)],
             inr {| ai_message := response_text response |})
        end
    end.
Proof.
  unfold try_body, call_start_chat, call_send_message_async; simpl.
  unfold mbind, M_bind, mret, M_ret.
  destruct (start_chat m _) as [e|convo]; [reflexivity|].
  destruct (send_message_async convo _) as [e|response]; reflexivity.
Qed.

Lemma except_clauses_classified e :
  (forall msg, e <> APIError None msg) ->
  exists http kind, except_clauses e = Raise http /\ classified http kind.
Proof.
  intros Hne. destruct e as [s | [c|] msg | s]; simpl.
  - eexists _, UpstreamBlocked. split; [reflexivity | constructor].
  - eexists _, UpstreamError. split; [reflexivity | constructor].
  - now destruct (Hne msg).
  - eexists _, InternalError. split; [reflexivity | constructor].
Qed.

(** The text returned is the fallback or the text of the first part of
    the first candidate. *)
Lemma response_text_cases response :
  response_text response = fallback_text
  \/ exists candidate c part,
       candidates response !! 0%nat = Some candidate
       /\ content candidate = Some c
       /\ content_parts c !! 0%nat = Some part
       /\ response_text response = part_text part.
Proof.
  unfold response_text.
  destruct (candidates response !! 0%nat) as [candidate|]; [|now left].
  destruct (content candidate) as [c|] eqn:Hc; [|now left].
  destruct (content_parts c !! 0%nat) as [part|] eqn:Hp; [|now left].
  right. exists candidate, c, part. rewrite Hc, Hp. auto.
Qed.

(** C4, as the code has it: unless upstream raises an API error that
    carries no status code, a request that passes the schema gets either a
    [ChatResponse] whose [ai_message] is the text read from the upstream
    answer (the first part of the first candidate, or the fallback), or an
    [HTTPException] of one of the five kinds. *)
Theorem C4_reply_or_classified_error model request :
  schema_ok request = true ->
  (forall m, model = Some m -> ~ raises_api_error_without_status m request) ->
  match fst (post_chat model request) with
  | Handled (Return response) =>
      exists m convo upstream_reply,
        model = Some m
        /\ start_chat m (format_history (chat_history request)) = inr convo
        /\ send_message_async convo (message request) = inr upstream_reply
        /\ ai_message response = response_text upstream_reply
  | Handled (Raise e) => exists kind, classified e kind
  | Handled (Propagate _) => False
  | RequestValidationError => False
  end.
Proof.
  intros Hs Hstatus.
  rewrite post_chat_schema_ok by assumption. cbn [fst].
  destruct model as [m|].
  2:{ rewrite chat_with_gemini_no_model. cbn [fst].
      exists ServiceUnavailable. constructor. }
  specialize (Hstatus m eq_refl).
  destruct (all_whitespace (message request)) eqn:Hws.
  { rewrite chat_with_gemini_blank by assumption. cbn [fst].
    exists InvalidInput. constructor. }
  rewrite chat_with_gemini_calls by assumption. cbn zeta.
  assert (Hraise : forall calls e, try_body m request = (calls, inl e) ->
            match except_clauses e with
            | Raise http => exists kind, classified http kind
            | _ => False
            end).
  { intros calls e He.
    destruct (except_clauses_classified e) as (http & kind & -> & Hk).
    - intros msg ->. apply Hstatus. now exists calls, msg.
    - now exists kind. }
  rewrite relay_try_body_eq in Hraise. cbn zeta in Hraise.
  destruct (start_chat m _) as [e|convo] eqn:Hstart.
  { cbn [fst]. specialize (Hraise _ e eq_refl).
    now destruct (except_clauses e). }
  destruct (send_message_async convo _) as [e|upstream_reply] eqn:Hsend.
  { cbn [fst]. specialize (Hraise _ e eq_refl).
    now destruct (except_clauses e). }
  cbn [fst]. exists m, convo, upstream_reply. auto.
Qed.

Lemma C4_reply_witness :
  exists kind,
    classified {| status_code := 400;
                  detail := lit "Your prompt was blocked by safety settings. Please try rephrasing: " ++ lit "SAFETY" |}
               kind.
Proof.
  apply (C4_reply_or_classified_error
           (Some (RelaySamples.raising (BlockedPromptException (lit "SAFETY"))))
           RelaySamples.hello).
  - reflexivity.
  - intros m [= <-] (calls & msg & H). discriminate H.
Defined.

(** C4 as stated fails: a valid request whose upstream answer starts with
    an empty text part is answered with an empty [ai_message]. *)
Lemma C4_counterexample :
  schema_ok RelaySamples.hello = true
  /\ all_whitespace (message RelaySamples.hello) = false
  /\ post_chat (Some (RelaySamples.answering (RelaySamples.one_part [])))
               RelaySamples.hello
     = (Handled (Return {| ai_message := [] |}),
        [StartChat []; SendMessage (lit "Hello")]).
Proof. repeat split. Qed.

(** The case C4 leaves aside: an [APIError] without [status_code] makes
    the log line of its own [except] clause raise, and that exception
    leaves the handler. *)
Lemma api_error_without_status_escapes :
  exists e,
    fst (post_chat (Some (RelaySamples.raising (APIError None (lit "quota"))))
                   RelaySamples.hello)
    = Handled (Propagate e).
Proof. eexists. reflexivity. Qed.

End RelayFacts.

(** ** The client shell *)

Module ShellFacts.
Import Py Shell.

(** *** Computations that leave the session alone *)

Lemma only_emits_ret {A} (a : A) : only_emits (mret a).
Proof. intros w. split; [reflexivity|]. exists []. cbn. now rewrite app_nil_r. Qed.

Lemma only_emits_raise {A} (e : exn) : only_emits (@raise A e).
Proof. intros w. split; [reflexivity|]. exists []. cbn. now rewrite app_nil_r. Qed.

Lemma only_emits_emit ev : only_emits (emit ev).
Proof. intros w. split; [reflexivity|]. now exists [ev]. Qed.

Lemma only_emits_bind {A B} (c : M A) (k : A -> M B) :
  only_emits c -> (forall a, only_emits (k a)) -> only_emits (c ≫= k).
Proof.
  intros Hc Hk w. unfold mbind, M_bind.
  destruct (Hc w) as [Hs [evs Hev]].
  destruct (c w) as [w' [e|a]]; cbn [fst] in *; [eauto|].
  destruct (Hk a w') as [Hs' [evs' Hev']].
  split; [congruence|]. exists (evs ++ evs'). now rewrite Hev', Hev, app_assoc.
Qed.

Lemma only_emits_try_except {A} (body : M A) clauses :
  only_emits body ->
  (forall e handler, clauses e = Some handler -> only_emits handler) ->
  only_emits (try_except body clauses).
Proof.
  intros Hb Hh w. unfold try_except.
  destruct (Hb w) as [Hs [evs Hev]].
  destruct (body w) as [w' [e|a]]; cbn [fst] in *; [|eauto].
  destruct (clauses e) as [handler|] eqn:He; cbn [fst]; [|eauto].
  destruct (Hh e handler He w') as [Hs' [evs' Hev']].
  split; [congruence|]. exists (evs ++ evs'). now rewrite Hev', Hev, app_assoc.
Qed.

Lemma only_emits_response_json response : only_emits (response_json response).
Proof.
  unfold response_json. destruct (body_json response);
    [apply only_emits_ret | apply only_emits_raise].
Qed.

Lemma only_emits_dict_get d key dflt : only_emits (dict_get d key dflt).
Proof.
  destruct d; simpl; (apply only_emits_ret || apply only_emits_raise).
Qed.

Lemma only_emits_on_http_error response : only_emits (on_http_error response).
Proof.
  unfold on_http_error. apply only_emits_bind.
  - apply only_emits_try_except.
    + apply only_emits_bind; [apply only_emits_response_json|].
      intros j. apply only_emits_dict_get.
    + intros e handler. destruct e; intros [= <-]. apply only_emits_ret.
  - intros error_detail.
    repeat match goal with |- context [if ?b then _ else _] => destruct b end;
      apply only_emits_emit.
Qed.

(** No [except] clause touches the conversation or the busy flag. *)
Lemma only_emits_except_clauses e handler :
  except_clauses e = Some handler -> only_emits handler.
Proof.
  destruct e; simpl; intros [= <-];
    (apply only_emits_emit || apply only_emits_on_http_error).
Qed.

(** *** The submission block, step by step *)

Lemma prepare_chat_history_acc msgs acc :
  fold_left
    (fun chat_history_for_api msg =>
       if bool_decide (role msg ∈ [user; assistant]) then
         chat_history_for_api ++
           [{| api_role := role msg; parts := [{| text := content msg |}] |}]
       else chat_history_for_api)
    msgs acc
  = acc ++ map (fun msg => {| api_role := role msg;
                              parts := [{| text := content msg |}] |})
               (filter (fun msg => role msg ∈ [user; assistant]) msgs).
Proof.
  revert acc. induction msgs as [|msg rest IH]; intros acc; simpl.
  - now rewrite app_nil_r.
  - rewrite IH, filter_cons. case_bool_decide as Hrole.
    + rewrite decide_True by assumption. simpl. now rewrite <- app_assoc.
    + now rewrite decide_False by assumption.
Qed.

(** The loop keeps the turns whose role is "user" or "assistant", in
    order, and copies role and content. *)
Lemma prepare_chat_history_filter msgs :
  prepare_chat_history msgs
  = map (fun msg => {| api_role := role msg;
                       parts := [{| text := content msg |}] |})
        (filter (fun msg => role msg ∈ [user; assistant]) msgs).
Proof. unfold prepare_chat_history. now rewrite prepare_chat_history_acc. Qed.

Lemma prepare_chat_history_app msgs msgs' :
  prepare_chat_history (msgs ++ msgs')
  = prepare_chat_history msgs ++ prepare_chat_history msgs'.
Proof. now rewrite !prepare_chat_history_filter, filter_app, map_app. Qed.

Lemma add_user_message_eq prompt w :
  add_user_message prompt w =
    ({| session := {| messages := messages (session w) ++ [user_message prompt];
                      thinking := thinking (session w) |};
        events := events w ++ [ChatMessageShown user (JString prompt)] |},
     inr tt).
Proof. reflexivity. Qed.

Lemma shell_try_body_eq net prompt chat_history_for_api w :
  try_body net prompt chat_history_for_api w =
    let payload := {| message := prompt; chat_history := chat_history_for_api |} in
    let posted := (events w ++ [SpinnerShown]) ++ [Posted payload] in
    match relay_outcome (net payload) with
    | inl e =>
        ({| session := {| messages := messages (session w); thinking := Some true |};
            events := posted |}, inl e)
    | inr ai_message =>
        ({| session :=
              {| messages := messages (session w)
                               ++ [{| role := assistant; content := ai_message |}];
                 thinking := Some true |};
            events := posted ++ [ChatMessageShown assistant ai_message] |},
         inr tt)
    end.
Proof.
  unfold try_body, requests_post, raise_for_status, response_json, relay_outcome,
    append_message, show_chat_message.
  unfold mbind, M_bind, mret, M_ret, raise. cbn.
  destruct (net _) as [e|response]; cbn; [reflexivity|].
  destruct ((400 <=? status_code response) && (status_code response <? 600));
    cbn; [reflexivity|].
  destruct (body_json response) as [j|]; cbn; [|reflexivity].
  destruct j; reflexivity.
Qed.

Lemma finally_block_eq w :
  finally_block w =
    ({| session := {| messages := messages (session w); thinking := Some false |};
        events := events w ++ [Rerun] |},
     inl RerunException).
Proof. reflexivity. Qed.

(** Whatever the body does, the [finally] block has the last word. *)
Lemma try_finally_block_eq (body : M unit) w :
  try_finally body finally_block w =
    ({| session := {| messages := messages (session (fst (body w)));
                      thinking := Some false |};
        events := events (fst (body w)) ++ [Rerun] |},
     inl RerunException).
Proof.
  unfold try_finally. destruct (body w) as [w' r]. now rewrite finally_block_eq.
Qed.

Lemma on_prompt_eq net prompt w :
  on_prompt net prompt w =
    try_finally
      (try_except (try_body net prompt (chat_history (payload_of w prompt)))
                  except_clauses)
      finally_block
      (fst (add_user_message prompt w)).
Proof. reflexivity. Qed.

(** The session the guarded block leaves is the one its body leaves. *)
Lemma try_except_session net prompt chat_history_for_api w :
  session (fst (try_except (try_body net prompt chat_history_for_api)
                           except_clauses w))
  = session (fst (try_body net prompt chat_history_for_api w)).
Proof.
  unfold try_except.
  destruct (try_body net prompt chat_history_for_api w) as [w' [e|[]]];
    [|reflexivity].
  destruct (except_clauses e) as [handler|] eqn:He; [|reflexivity].
  cbn [fst]. apply (only_emits_except_clauses e handler He).
Qed.

(** The guarded block adds to the trace of its body, never removes. *)
Lemma try_except_events net prompt chat_history_for_api w :
  exists evs,
    events (fst (try_except (try_body net prompt chat_history_for_api)
                            except_clauses w))
    = events (fst (try_body net prompt chat_history_for_api w)) ++ evs.
Proof.
  unfold try_except.
  destruct (try_body net prompt chat_history_for_api w) as [w' [e|[]]];
    cbn [fst]; [|exists []; now rewrite app_nil_r].
  destruct (except_clauses e) as [handler|] eqn:He;
    cbn [fst]; [|exists []; now rewrite app_nil_r].
  apply (only_emits_except_clauses e handler He).
Qed.

(** The conversation after a submission: the prompt, then the relay's
    message if the call went through. *)
Lemma on_prompt_messages net prompt w :
  messages (session (fst (on_prompt net prompt w))) =
    (messages (session w) ++ [user_message prompt]) ++
    match relay_outcome (net (payload_of w prompt)) with
    | inl _ => []
    | inr ai_message => [{| role := assistant; content := ai_message |}]
    end.
Proof.
  rewrite on_prompt_eq, try_finally_block_eq. cbn [fst session messages].
  rewrite try_except_session, shell_try_body_eq. cbn zeta.
  change {| message := prompt; chat_history := chat_history (payload_of w prompt) |}
    with (payload_of w prompt).
  destruct (relay_outcome _); cbn; [now rewrite app_nil_r | reflexivity].
Qed.

Lemma relay_call_fails_outcome answer :
  relay_call_fails answer <-> exists e, relay_outcome answer = inl e.
Proof.
  split.
  - intros [e | response Hst | response Hj | response j Hj Hobj]; simpl.
    + eauto.
    + replace ((400 <=? status_code response) && (status_code response <? 600))
        with true by (symmetry; apply andb_true_iff; split; lia).
      eauto.
    + destruct (_ && _); [eauto|]. rewrite Hj. eauto.
    + destruct (_ && _); [eauto|]. rewrite Hj.
      destruct j; eauto. now destruct (Hobj fields).
  - intros [e He]. destruct answer as [e'|response]; [constructor|].
    simpl in He.
    destruct ((400 <=? status_code response) && (status_code response <? 600)) eqn:Hst.
    + apply fails_status. apply andb_true_iff in Hst. lia.
    + destruct (body_json response) as [j|] eqn:Hj;
        [|now apply fails_not_json].
      apply (fails_not_object response j Hj). intros fields ->. discriminate.
Qed.

(** The trace of a submission: the prompt shown, the spinner, the post,
    whatever the rest of the block shows, and the rerun. *)
Lemma on_prompt_events net prompt w :
  exists evs,
    events (fst (on_prompt net prompt w)) =
      events w ++
      [ChatMessageShown user (JString prompt); SpinnerShown;
       Posted (payload_of w prompt)] ++ evs ++ [Rerun].
Proof.
  rewrite on_prompt_eq, try_finally_block_eq. cbn [fst events].
  destruct (try_except_events net prompt (chat_history (payload_of w prompt))
              (fst (add_user_message prompt w))) as [evs ->].
  rewrite shell_try_body_eq. cbn zeta.
  change {| message := prompt; chat_history := chat_history (payload_of w prompt) |}
    with (payload_of w prompt).
  destruct (relay_outcome _) as [e|ai_message];
    rewrite add_user_message_eq; cbn [fst events].
  - exists evs. now rewrite <- !app_assoc.
  - exists (ChatMessageShown assistant ai_message :: evs).
    now rewrite <- !app_assoc.
Qed.

(** A submission whose relay call goes through, in full. *)
Lemma on_prompt_success net prompt w ai_message :
  relay_outcome (net (payload_of w prompt)) = inr ai_message ->
  on_prompt net prompt w =
    ({| session :=
          {| messages := (messages (session w) ++ [user_message prompt])
                           ++ [{| role := assistant; content := ai_message |}];
             thinking := Some false |};
        events :=
          ((((events w ++ [ChatMessageShown user (JString prompt)])
               ++ [SpinnerShown]) ++ [Posted (payload_of w prompt)])
             ++ [ChatMessageShown assistant ai_message]) ++ [Rerun] |},
     inl RerunException).
Proof.
  intros Hok. rewrite on_prompt_eq, try_finally_block_eq.
  unfold try_except. rewrite shell_try_body_eq. cbn zeta.
  change {| message := prompt; chat_history := chat_history (payload_of w prompt) |}
    with (payload_of w prompt).
  rewrite Hok. reflexivity.
Qed.

(** *** A whole run of the script *)

Lemma display_eq msgs w :
  display msgs w =
    ({| session := session w;
        events := events w
                    ++ map (fun m => ChatMessageShown (role m) (content m)) msgs |},
     inr tt).
Proof.
  revert w. induction msgs as [|m rest IH]; intros w.
  - cbn. rewrite app_nil_r. now destruct w.
  - cbn [display]. unfold mbind, M_bind, show_chat_message, emit.
    rewrite IH. cbn. now rewrite <- app_assoc.
Qed.

(** A run clears the conversation, or leaves the session as it is, or is
    a submission. *)
Lemma run_cases s inp :
  (clear_chat inp = true
   /\ run s inp = {| messages := []; thinking := thinking s |})
  \/ (clear_chat inp = false /\ run s inp = s)
  \/ (clear_chat inp = false
      /\ exists prompt w,
           session w = s
           /\ run s inp = session (fst (on_prompt (network inp) prompt w))).
Proof.
  unfold run, script.
  destruct (clear_chat inp) eqn:Hclear.
  { left. split; reflexivity. }
  right. unfold mbind, M_bind, mret, M_ret, get_messages, get_thinking.
  cbn [fst snd session]. rewrite display_eq. cbn [fst snd session events].
  destruct (default false (thinking s)).
  { left. split; reflexivity. }
  destruct (chat_input inp) as [prompt|].
  2:{ left. split; reflexivity. }
  destruct (truthy prompt).
  2:{ left. split; reflexivity. }
  right. split; [reflexivity|]. eexists prompt, _. split; [|reflexivity].
  reflexivity.
Qed.

Lemma run_shell_roles s inp :
  Forall shell_role (messages s) -> Forall shell_role (messages (run s inp)).
Proof.
  intros Hs.
  destruct (run_cases s inp) as [[_ ->] | [[_ ->] | [_ (prompt & w & <- & ->)]]].
  - constructor.
  - assumption.
  - rewrite on_prompt_messages. rewrite !Forall_app. split; [split|].
    + assumption.
    + apply Forall_singleton. now left.
    + destruct (relay_outcome _); [constructor|].
      apply Forall_singleton. now right.
Qed.

Lemma run_thinking s inp :
  thinking (run s inp) = thinking s \/ thinking (run s inp) = Some false.
Proof.
  destruct (run_cases s inp) as [[_ ->] | [[_ ->] | [_ (prompt & w & <- & ->)]]].
  - now left.
  - now left.
  - right. rewrite on_prompt_eq, try_finally_block_eq. reflexivity.
Qed.

Lemma fold_run_invariant (P : SessionState -> Prop) :
  (forall s inp, P s -> P (run s inp)) ->
  forall inputs s, P s -> P (fold_left run inputs s).
Proof.
  intros Hstep inputs. induction inputs as [|inp rest IH]; intros s Hs.
  - exact Hs.
  - simpl. apply IH, Hstep, Hs.
Qed.

(** *** The history sent with a prompt *)

(** The prompt is appended to the conversation before the history is
    prepared, so the [chat_history] posted with it ends with the prompt
    itself, as a "user" turn. *)
Lemma history_ends_with_new_message net prompt w :
  chat_history (payload_of w prompt) =
    prepare_chat_history (messages (session w)) ++
    [{| api_role := user; parts := [{| text := JString prompt |}] |}]
  /\ message (payload_of w prompt) = prompt
  /\ Posted (payload_of w prompt) ∈ events (fst (on_prompt net prompt w)).
Proof.
  split; [|split].
  - unfold payload_of. cbn [chat_history].
    now rewrite prepare_chat_history_app.
  - reflexivity.
  - destruct (on_prompt_events net prompt w) as [evs ->].
    rewrite !elem_of_app. right. left.
    apply list_elem_of_In. simpl. auto.
Qed.

(** *** Failures leave the conversation alone *)

(** C7: when the relay call fails, the conversation after the attempt is
    the one the call was issued from: the earlier turns and the pending
    user turn, no more. *)
Theorem C7_failure_leaves_conversation net prompt w :
  relay_call_fails (net (payload_of w prompt)) ->
  let before_call := fst (add_user_message prompt w) in
  messages (session (fst (on_prompt net prompt w)))
    = messages (session before_call)
  /\ messages (session before_call)
    = messages (session w) ++ [user_message prompt].
Proof.
  intros Hfail before_call. split; [|reflexivity].
  apply relay_call_fails_outcome in Hfail as [e He].
  rewrite on_prompt_messages, He. now rewrite app_nil_r.
Qed.

Lemma C7_failure_witness :
  messages (session (fst (on_prompt
             (ShellSamples.relay_raises Timeout) (lit "Hello") ShellSamples.fresh)))
  = [user_message (lit "Hello")].
Proof.
  apply (C7_failure_leaves_conversation
           (ShellSamples.relay_raises Timeout) (lit "Hello") ShellSamples.fresh).
  constructor.
Defined.

(** *** The busy flag *)

(** C8: however a submission goes, the block ends with the busy flag
    written back to [False] and with [st.rerun()], which is the last thing
    it does; and no sequence of runs leaves a session busy. *)
Theorem C8_busy_flag_cleared :
  (forall net prompt w,
     thinking (session (fst (on_prompt net prompt w))) = Some false
     /\ last (events (fst (on_prompt net prompt w))) = Some Rerun
     /\ snd (on_prompt net prompt w) = inl RerunException)
  /\ (forall inputs, thinking (session_after inputs) <> Some true).
Proof.
  split.
  - intros net prompt w.
    rewrite on_prompt_eq, try_finally_block_eq.
    cbn [fst snd session thinking events].
    split; [reflexivity|]. split; [|reflexivity].
    apply last_snoc.
  - intros inputs. unfold session_after.
    apply (fold_run_invariant (fun s => thinking s <> Some true)).
    + intros s inp Hs. destruct (run_thinking s inp) as [-> | ->];
        [assumption | discriminate].
    + discriminate.
Qed.

(** *** A reply without [ai_message] *)

(** C10: a 200 answer whose body is a JSON object without the key
    "ai_message" is no failure: the stand-in text is appended as the
    relay's turn, under the role "assistant", and shown; no error or
    warning is. *)
Theorem C10_missing_ai_message net prompt w response fields :
  net (payload_of w prompt) = inr response ->
  status_code response = 200 ->
  body_json response = Some (JObject fields) ->
  fields !! lit "ai_message" = None ->
  let stand_in :=
    JString (lit "Sorry, I couldn't get a clear response from Gemini.") in
  messages (session (fst (on_prompt net prompt w)))
    = messages (session w)
        ++ [user_message prompt; {| role := lit "assistant"; content := stand_in |}]
  /\ events (fst (on_prompt net prompt w))
    = events w
        ++ [ChatMessageShown user (JString prompt); SpinnerShown;
            Posted (payload_of w prompt);
            ChatMessageShown (lit "assistant") stand_in; Rerun].
Proof.
  intros Hnet Hstatus Hjson Hkey stand_in.
  rewrite (on_prompt_success net prompt w stand_in).
  - cbn [fst session messages events]. split; now rewrite <- !app_assoc.
  - rewrite Hnet. unfold relay_outcome. rewrite Hstatus, Hjson, Hkey. reflexivity.
Qed.

Lemma C10_missing_ai_message_witness :
  messages (session (fst (on_prompt
             (ShellSamples.relay_says (JObject ∅)) (lit "Hello") ShellSamples.fresh)))
  = [user_message (lit "Hello");
     {| role := lit "assistant";
        content := JString (lit "Sorry, I couldn't get a clear response from Gemini.") |}].
Proof.
  apply (C10_missing_ai_message
           (ShellSamples.relay_says (JObject ∅)) (lit "Hello") ShellSamples.fresh
           {| status_code := 200; body_text := []; body_json := Some (JObject ∅) |}
           ∅); reflexivity.
Defined.

(** *** The roles of the turns *)

(** C6, as the code has it: every turn the shell holds has the role
    "user" or "assistant", and a run never rewrites a turn it already
    holds: it empties the conversation (Clear Chat) or extends it. *)
Theorem C6_shell_roles :
  (forall inputs, Forall shell_role (messages (session_after inputs)))
  /\ (forall s inp,
        if clear_chat inp then messages (run s inp) = []
        else messages s `prefix_of` messages (run s inp)).
Proof.
  split.
  - intros inputs. unfold session_after.
    apply (fold_run_invariant (fun s => Forall shell_role (messages s))).
    + apply run_shell_roles.
    + constructor.
  - intros s inp.
    destruct (run_cases s inp) as [[-> ->] | [[-> ->] | [-> (prompt & w & <- & ->)]]].
    + reflexivity.
    + reflexivity.
    + rewrite on_prompt_messages, <- app_assoc. now eexists.
Qed.

(** C6 as stated fails: after one exchange the shell holds a turn whose
    role is "assistant", not "model". *)
Lemma C6_counterexample :
  messages (session_after
              [ShellSamples.submit "Hello"
                 (ShellSamples.relay_says (ShellSamples.ai_reply "Hi there!"))])
  = [{| role := lit "user"; content := JString (lit "Hello") |};
     {| role := lit "assistant"; content := JString (lit "Hi there!") |}]
  /\ lit "assistant" <> lit "user"
  /\ lit "assistant" <> lit "model".
Proof.
  split; [vm_compute; reflexivity|]. split; discriminate.
Qed.

(** The role "assistant" also travels: the history posted with the next
    prompt carries it. *)
Lemma assistant_role_is_posted :
  let s := session_after
             [ShellSamples.submit "Hello"
                (ShellSamples.relay_says (ShellSamples.ai_reply "Hi there!"))] in
  chat_history (payload_of {| session := s; events := [] |} (lit "More")) !! 1%nat
  = Some {| api_role := lit "assistant";
            parts := [{| text := JString (lit "Hi there!") |}] |}.
Proof. vm_compute. reflexivity. Qed.

(** A 200 answer whose body is JSON but no object has no [get]: the
    generic error is shown and nothing is appended. *)
Lemma non_object_body_is_a_failure :
  let w := fst (on_prompt (ShellSamples.relay_says (JArray []))
                          (lit "Hello") ShellSamples.fresh) in
  messages (session w) = [user_message (lit "Hello")]
  /\ ErrorShown (UnexpectedErrorNotice (lit "object has no attribute 'get'"))
       ∈ events w.
Proof.
  split; [reflexivity|]. vm_compute. do 3 apply list_elem_of_further.
  apply list_elem_of_here.
Qed.

End ShellFacts.

(** ** Shell and relay together *)

Module SystemFacts.
Import Py.

(** C1 on the code, at the first prompt of a session: the history posted
    with "Hello" already holds "Hello", and the relay, which sends the
    message after replaying the history, presents it upstream twice. *)
Theorem C1_new_message_sent_twice :
  let payload := Shell.payload_of ShellSamples.fresh (lit "Hello") in
  Shell.message payload = lit "Hello"
  /\ Shell.chat_history payload =
       [{| Shell.api_role := lit "user";
           Shell.parts := [{| Shell.text := Shell.JString (lit "Hello") |}] |}]
  /\ exists request,
       Wire.request_of payload = Some request
       /\ snd (Relay.post_chat
                 (Some (RelaySamples.answering (RelaySamples.one_part (lit "Hi there!"))))
                 request)
          = [Relay.StartChat
               [{| Relay.f_role := lit "user";
                   Relay.f_parts := [{| Relay.f_text := lit "Hello" |}] |}];
             Relay.SendMessage (lit "Hello")].
Proof.
  split; [reflexivity|]. split; [reflexivity|].
  eexists. split; reflexivity.
Qed.

End SystemFacts.

(** * Further properties of the code *)

(** ** The relay: upstream calls and answers *)

Module RelayExtras.
Import Py PyFacts Relay RelayFacts.

(** Upstream is contacted exactly when the model is there, the request
    passes the schema and the message is not blank; then [start_chat] is
    called once with the formatted history, and the message is sent once,
    as received, only if [start_chat] did not raise. Nothing is retried. *)
Theorem upstream_calls_of_a_request model request :
  snd (post_chat model request) =
    match model with
    | Some m =>
        if schema_ok request && negb (all_whitespace (message request)) then
          StartChat (format_history (chat_history request)) ::
          match start_chat m (format_history (chat_history request)) with
          | inr _ => [SendMessage (message request)]
          | inl _ => []
          end
        else []
    | None => []
    end.
Proof.
  destruct (schema_ok request) eqn:Hs.
  2:{ rewrite post_chat_schema_fails by assumption. now destruct model. }
  rewrite post_chat_schema_ok by assumption. cbn [snd andb].
  destruct model as [m|]; [|reflexivity].
  destruct (all_whitespace (message request)) eqn:Hws; cbn [negb].
  - now rewrite chat_with_gemini_blank.
  - rewrite chat_with_gemini_calls by assumption. cbn zeta.
    destruct (start_chat m _) as [e|convo]; [reflexivity|].
    destruct (send_message_async convo _); reflexivity.
Qed.

(** The client is given the text of the first part of the first
    candidate: further parts and further candidates of the upstream answer
    never reach it. *)
Theorem only_first_part_is_returned m request convo response
    candidate others c part more :
  schema_ok request = true ->
  all_whitespace (message request) = false ->
  start_chat m (format_history (chat_history request)) = inr convo ->
  send_message_async convo (message request) = inr response ->
  candidates response = candidate :: others ->
  content candidate = Some c ->
  content_parts c = part :: more ->
  fst (post_chat (Some m) request)
    = Handled (Return {| ai_message := part_text part |}).
Proof.
  intros Hs Hws Hstart Hsend Hc Hct Hp.
  rewrite post_chat_schema_ok by assumption. cbn [fst].
  rewrite chat_with_gemini_calls by assumption. cbn zeta.
  rewrite Hstart, Hsend. cbn [fst].
  unfold response_text. rewrite Hc. cbn. rewrite Hct, Hp. reflexivity.
Qed.

Lemma only_first_part_is_returned_witness :
  fst (post_chat (Some (RelaySamples.answering ExtraSamples.two_candidates))
                 RelaySamples.hello)
  = Handled (Return {| ai_message := lit "one" |}).
Proof.
  apply (only_first_part_is_returned
           (RelaySamples.answering ExtraSamples.two_candidates)
           RelaySamples.hello
           {| send_message_async := fun _ => inr ExtraSamples.two_candidates |}
           ExtraSamples.two_candidates
           ExtraSamples.first_candidate
           [{| content := None |}]
           {| content_parts := [{| part_text := lit "one" |};
                                {| part_text := lit "two" |}] |}
           {| part_text := lit "one" |}
           [{| part_text := lit "two" |}]); reflexivity.
Defined.

(** Whichever of the two upstream calls raises, the answer goes by the
    class of the exception: a blocked prompt is a 400 whose detail ends
    with upstream's explanation, an API error that has a status code is
    answered with that very code, any other exception is a 500. *)
Theorem upstream_exception_answer m request e :
  schema_ok request = true ->
  all_whitespace (message request) = false ->
  start_chat m (format_history (chat_history request)) = inl e
  \/ (exists convo,
        start_chat m (format_history (chat_history request)) = inr convo
        /\ send_message_async convo (message request) = inl e) ->
  match e with
  | BlockedPromptException s =>
      fst (post_chat (Some m) request) =
        Handled (Raise {| status_code := 400;
                          detail := lit "Your prompt was blocked by safety settings. Please try rephrasing: " ++ s |})
  | APIError (Some code) msg =>
      fst (post_chat (Some m) request) =
        Handled (Raise {| status_code := code;
                          detail := lit "Gemini API error: " ++ msg |})
  | APIError None _ =>
      exists e', fst (post_chat (Some m) request) = Handled (Propagate e')
  | Exception s =>
      fst (post_chat (Some m) request) =
        Handled (Raise {| status_code := 500;
                          detail := lit "An unexpected internal server error occurred: " ++ s |})
  end.
Proof.
  intros Hs Hws Hraise.
  assert (H : fst (post_chat (Some m) request) = Handled (except_clauses e)).
  { rewrite post_chat_schema_ok by assumption. cbn [fst].
    rewrite chat_with_gemini_calls by assumption. cbn zeta.
    destruct Hraise as [-> | (convo & -> & ->)]; reflexivity. }
  rewrite H. destruct e as [s | [code|] msg | s]; simpl; eauto.
Qed.

Lemma upstream_exception_answer_witness :
  fst (post_chat (Some (RelaySamples.raising (APIError (Some 429) (lit "quota"))))
                 RelaySamples.hello)
  = Handled (Raise {| status_code := 429;
                      detail := lit "Gemini API error: " ++ lit "quota" |}).
Proof.
  apply (upstream_exception_answer
           (RelaySamples.raising (APIError (Some 429) (lit "quota")))
           RelaySamples.hello (APIError (Some 429) (lit "quota")));
    try reflexivity.
  right. eexists. split; reflexivity.
Defined.

(** The detail of an [HTTPException] of the handler tells its kind: no
    exception falls under two kinds. *)
Theorem classified_kind_unique e kind kind' :
  classified e kind -> classified e kind' -> kind = kind'.
Proof.
  intros H H'. inversion H; subst; inversion H'; subst;
    try reflexivity; discriminate.
Qed.

Lemma classified_kind_unique_witness :
  InvalidInput = InvalidInput.
Proof.
  apply (classified_kind_unique
           {| status_code := 400; detail := lit "Message cannot be empty." |});
    constructor.
Defined.

End RelayExtras.

(** ** Start-up and GET /list_models *)

Module ServiceFacts.
Import Py Relay Service.

(** The service starts exactly when the key is set and not empty; a model
    that cannot be built does not stop it, it leaves [model] at [None]. *)
Theorem startup_needs_only_the_key getenv construct :
  match startup getenv construct with
  | Started key model =>
      getenv = Some key /\ key <> []
      /\ (model = None <-> exists e, construct = inl e)
  | ValueError msg =>
      (getenv = None \/ getenv = Some []) /\ msg = key_missing
  end.
Proof.
  unfold startup. destruct getenv as [[|c key]|]; simpl.
  - auto.
  - split; [reflexivity|]. split; [discriminate|].
    destruct construct as [e|m]; split; eauto; try discriminate.
    intros [e' [=]].
  - auto.
Qed.

Lemma collect_acc models acc :
  fold_left
    (fun available_models m =>
       if bool_decide (lit "generateContent" ∈ supported_generation_methods m)
       then available_models ++
              [{| entry_name := name m;
                  displayName := display_name m;
                  supported_methods := supported_generation_methods m |}]
       else available_models)
    models acc
  = acc ++ map entry_of (filter generates_content models).
Proof.
  revert acc. induction models as [|m rest IH]; intros acc; simpl.
  - now rewrite app_nil_r.
  - rewrite IH, filter_cons. unfold generates_content at 2.
    case_bool_decide as Hm.
    + rewrite decide_True by assumption. simpl. now rewrite <- app_assoc.
    + now rewrite decide_False by assumption.
Qed.

(** When the listing ends without an exception, the answer holds one
    entry for each model that supports "generateContent", in the order of
    the listing, with its name, display name and methods; the other models
    are left out. *)
Theorem list_models_keeps_generating_models key listing :
  key <> [] ->
  raised listing = None ->
  list_available_models (Some key) listing
    = inr (map entry_of (filter generates_content (yielded listing))).
Proof.
  intros Hkey Hend. unfold list_available_models.
  destruct key; [congruence|]. simpl. rewrite Hend.
  unfold collect. now rewrite collect_acc.
Qed.

Lemma list_models_keeps_generating_models_witness :
  list_available_models (Some (lit "secret"))
    {| yielded := [ExtraSamples.flash; ExtraSamples.embedding; ExtraSamples.pro];
       raised := None |}
  = inr [entry_of ExtraSamples.flash; entry_of ExtraSamples.pro].
Proof.
  apply (list_models_keeps_generating_models (lit "secret")
           {| yielded := [ExtraSamples.flash; ExtraSamples.embedding; ExtraSamples.pro];
              raised := None |}).
  - discriminate.
  - reflexivity.
Defined.

(** When the listing raises, the answer is a 500 whose detail ends with
    the exception's text, whatever was listed before it: no partial list
    is returned. *)
Theorem list_models_failure_is_500 key listing e :
  key <> [] ->
  raised listing = Some e ->
  list_available_models (Some key) listing
    = inl {| status_code := 500; detail := lit "Error listing models: " ++ e |}.
Proof.
  intros Hkey Hraise. unfold list_available_models.
  destruct key; [congruence|]. simpl. now rewrite Hraise.
Qed.

Lemma list_models_failure_is_500_witness :
  list_available_models (Some (lit "secret"))
    {| yielded := [ExtraSamples.flash]; raised := Some (lit "deadline exceeded") |}
  = inl {| status_code := 500;
           detail := lit "Error listing models: " ++ lit "deadline exceeded" |}.
Proof.
  apply (list_models_failure_is_500 (lit "secret")
           {| yielded := [ExtraSamples.flash];
              raised := Some (lit "deadline exceeded") |}
           (lit "deadline exceeded")).
  - discriminate.
  - reflexivity.
Defined.

Lemma started_key_not_empty getenv construct key model :
  startup getenv construct = Started key model -> key <> [].
Proof.
  unfold startup. destruct getenv as [[|c k]|]; simpl; try discriminate.
  intros [= <- _]. discriminate.
Qed.

(** In a service that has started, the key check of [list_available_models]
    never fires: its 500 "GEMINI_API_KEY not set." is never the answer. *)
Theorem key_check_is_dead_after_startup getenv construct key model listing :
  startup getenv construct = Started key model ->
  list_available_models (Some key) listing
    <> inl {| status_code := 500; detail := lit "GEMINI_API_KEY not set." |}.
Proof.
  intros Hstart. apply started_key_not_empty in Hstart.
  unfold list_available_models. destruct key; [congruence|]. simpl.
  destruct (raised listing); discriminate.
Qed.

Lemma key_check_is_dead_after_startup_witness :
  list_available_models (Some (lit "secret"))
    {| yielded := []; raised := None |}
  <> inl {| status_code := 500; detail := lit "GEMINI_API_KEY not set." |}.
Proof.
  apply (key_check_is_dead_after_startup (Some (lit "secret"))
           (inl (Exception (lit "no such model"))) (lit "secret") None
           {| yielded := []; raised := None |}).
  reflexivity.
Defined.

End ServiceFacts.

(** ** The shell: what a run shows, posts and keeps *)

Module ShellExtras.
Import Py Shell ShellTrace ShellFacts.

(** *** Equations for the script and the handlers *)

Lemma script_clear inp w :
  clear_chat inp = true ->
  script inp w =
    ({| session := {| messages := []; thinking := thinking (session w) |};
        events := events w ++ [Rerun] |},
     inl RerunException).
Proof. intros H. unfold script. rewrite H. reflexivity. Qed.

Lemma script_no_clear inp w :
  clear_chat inp = false ->
  script inp w =
    let w' := {| session := session w;
                 events := events w ++ displayed (messages (session w)) |} in
    match (if default false (thinking (session w)) then None else chat_input inp) with
    | Some prompt =>
        if truthy prompt then on_prompt (network inp) prompt w' else (w', inr tt)
    | None => (w', inr tt)
    end.
Proof.
  intros H. unfold script. rewrite H.
  unfold mbind, M_bind, mret, M_ret, get_messages, get_thinking.
  rewrite display_eq. cbn [fst snd session events]. unfold displayed.
  destruct (default false (thinking (session w))); [reflexivity|].
  destruct (chat_input inp) as [prompt|]; [|reflexivity].
  destruct (truthy prompt); reflexivity.
Qed.

Lemma on_http_error_eq response w :
  on_http_error response w =
    match error_detail_of response with
    | Some error_detail =>
        ({| session := session w;
            events := events w ++ [http_notice (status_code response) error_detail] |},
         inr tt)
    | None => (w, inl (Exception (lit "object has no attribute 'get'")))
    end.
Proof.
  unfold on_http_error, error_detail_of, http_notice, try_except, response_json.
  unfold mbind, M_bind, mret, M_ret, raise.
  destruct (body_json response) as [j|]; cbn.
  - destruct j; cbn; try reflexivity.
    repeat match goal with |- context [if ?b then _ else _] => destruct b end;
      reflexivity.
  - repeat match goal with |- context [if ?b then _ else _] => destruct b end;
      reflexivity.
Qed.

(** What the clause matching [e] leaves: the session as it was, and the
    trace with what it shows. *)
Lemma handler_shows e w :
  let after := match except_clauses e with
               | Some handler => fst (handler w)
               | None => w
               end in
  session after = session w /\ events after = events w ++ shown e.
Proof.
  destruct e; cbn; try (split; [reflexivity | now rewrite ?app_nil_r]).
  rewrite on_http_error_eq.
  destruct (error_detail_of response);
    cbn; (split; [reflexivity | now rewrite ?app_nil_r]).
Qed.

(** The trace of a submission whose relay call fails with [e]. *)
Lemma on_prompt_failure_events net prompt w e :
  relay_outcome (net (payload_of w prompt)) = inl e ->
  events (fst (on_prompt net prompt w)) =
    events w ++
    [ChatMessageShown user (JString prompt); SpinnerShown;
     Posted (payload_of w prompt)] ++ shown e ++ [Rerun].
Proof.
  intros He. rewrite on_prompt_eq, try_finally_block_eq. cbn [fst events].
  unfold try_except. rewrite shell_try_body_eq. cbn zeta.
  change {| message := prompt; chat_history := chat_history (payload_of w prompt) |}
    with (payload_of w prompt).
  rewrite He, add_user_message_eq. cbn [fst session events messages thinking].
  match goal with
  | |- context [except_clauses e] =>
      match goal with
      | |- events (fst (match except_clauses e with
                        | Some handler => handler ?w2
                        | None => _ end)) ++ _ = _ =>
          pose proof (handler_shows e w2) as [_ Hev]
      end
  end.
  destruct (except_clauses e) as [handler|]; cbn [fst] in *;
    rewrite Hev; cbn [events]; now rewrite <- !app_assoc.
Qed.

Lemma shown_are_notices e : Forall (fun ev => is_notice ev = true) (shown e).
Proof.
  destruct e; cbn; repeat constructor.
  destruct (error_detail_of response); [|constructor].
  apply Forall_singleton. unfold http_notice.
  repeat match goal with |- context [if ?b then _ else _] => destruct b end;
    reflexivity.
Qed.

Lemma notices_are_no_posts evs :
  Forall (fun ev => is_notice ev = true) evs -> filter is_post evs = [].
Proof.
  induction 1 as [|ev evs Hev _ IH]; [reflexivity|].
  rewrite filter_cons, IH. destruct ev; try discriminate; reflexivity.
Qed.

(** *** Clear Chat *)

(** Pressing Clear Chat empties the conversation and reruns at once: the
    run posts nothing, shows nothing else, leaves the busy flag as it is,
    and a prompt submitted in the same run is dropped. *)
Theorem clear_chat_resets_without_network inp w :
  clear_chat inp = true ->
  messages (session (fst (script inp w))) = []
  /\ thinking (session (fst (script inp w))) = thinking (session w)
  /\ events (fst (script inp w)) = events w ++ [Rerun]
  /\ filter is_post (events (fst (script inp w))) = filter is_post (events w)
  /\ snd (script inp w) = inl RerunException.
Proof.
  intros H. rewrite (script_clear inp w H). cbn [fst snd session messages thinking events].
  repeat split. rewrite filter_app. cbn. now rewrite app_nil_r.
Qed.

Lemma clear_chat_resets_witness :
  messages (session (fst (script
     {| clear_chat := true; chat_input := Some (lit "Hello");
        network := ShellSamples.relay_says (ShellSamples.ai_reply "Hi") |}
     {| session := ExtraSamples.one_exchange; events := [] |}))) = [].
Proof.
  apply (clear_chat_resets_without_network
           {| clear_chat := true; chat_input := Some (lit "Hello");
              network := ShellSamples.relay_says (ShellSamples.ai_reply "Hi") |}
           {| session := ExtraSamples.one_exchange; events := [] |}).
  reflexivity.
Defined.

(** *** Runs without a submission *)

(** A run in which nothing is submitted (no prompt, or an empty one)
    shows the stored conversation and stops there: the session is
    unchanged, nothing is posted and no rerun is asked for. *)
Theorem idle_run_only_displays inp w :
  clear_chat inp = false ->
  chat_input inp = None \/ chat_input inp = Some [] ->
  script inp w =
    ({| session := session w;
        events := events w ++ displayed (messages (session w)) |}, inr tt).
Proof.
  intros Hclear Hinput. rewrite script_no_clear by assumption. cbn zeta.
  destruct (default false (thinking (session w))); [reflexivity|].
  destruct Hinput as [-> | ->]; reflexivity.
Qed.

Lemma idle_run_only_displays_witness :
  script {| clear_chat := false; chat_input := Some [];
            network := ShellSamples.relay_raises Timeout |}
         ShellSamples.fresh
  = ({| session := initial; events := [] |}, inr tt).
Proof.
  apply (idle_run_only_displays
           {| clear_chat := false; chat_input := Some [];
              network := ShellSamples.relay_raises Timeout |}
           ShellSamples.fresh).
  - reflexivity.
  - right. reflexivity.
Defined.

(** Unless Clear Chat was pressed, a run first shows every stored turn,
    in order, before anything else. *)
Theorem run_redisplays_conversation inp w :
  clear_chat inp = false ->
  (events w ++ displayed (messages (session w)))
    `prefix_of` events (fst (script inp w)).
Proof.
  intros Hclear. rewrite script_no_clear by assumption. cbn zeta.
  set (w' := {| session := session w;
                events := events w ++ displayed (messages (session w)) |}).
  assert (Hidle : (events w ++ displayed (messages (session w)))
                    `prefix_of` events (fst (w', @inr exn unit tt))).
  { cbn. reflexivity. }
  destruct (default false (thinking (session w))); [exact Hidle|].
  destruct (chat_input inp) as [prompt|]; [|exact Hidle].
  destruct (truthy prompt); [|exact Hidle].
  destruct (on_prompt_events (network inp) prompt w') as [evs ->].
  cbn [events w']. now eexists.
Qed.

Lemma run_redisplays_conversation_witness :
  ([] ++ displayed (messages ExtraSamples.one_exchange))
    `prefix_of`
  events (fst (script (ShellSamples.submit "More" (ShellSamples.relay_raises Timeout))
                      {| session := ExtraSamples.one_exchange; events := [] |})).
Proof.
  apply (run_redisplays_conversation
           (ShellSamples.submit "More" (ShellSamples.relay_raises Timeout))
           {| session := ExtraSamples.one_exchange; events := [] |}).
  reflexivity.
Defined.

(** *** One call per submission *)

(** A submission posts to the relay exactly once, whatever the relay
    answers: no handler posts again, nothing is retried. *)
Theorem one_post_per_submission net prompt w :
  filter is_post (events (fst (on_prompt net prompt w)))
    = filter is_post (events w) ++ [Posted (payload_of w prompt)].
Proof.
  destruct (relay_outcome (net (payload_of w prompt))) as [e|ai_message] eqn:Hout.
  - rewrite (on_prompt_failure_events net prompt w e Hout).
    rewrite !filter_app, (notices_are_no_posts _ (shown_are_notices e)).
    cbn. now rewrite app_nil_r.
  - rewrite (on_prompt_success net prompt w ai_message Hout).
    cbn [fst events]. rewrite !filter_app. cbn. now rewrite !app_nil_r.
Qed.

(** *** What the user is told when the call fails *)

Lemma relay_outcome_http_error response :
  400 <= status_code response < 600 ->
  relay_outcome (inr response) = inl (HTTPError response).
Proof.
  intros H. unfold relay_outcome.
  replace ((400 <=? status_code response) && (status_code response <? 600))
    with true by (symmetry; apply andb_true_iff; split; lia).
  reflexivity.
Qed.

(** An error answer of the relay, [{"detail": d}] with a 4xx or 5xx
    status, is shown with its detail [d]: as a warning when the status is
    400, as an error for every other status; nothing else is shown and the
    conversation keeps the pending prompt only. *)
Theorem relay_error_detail_is_shown net prompt w response fields d :
  net (payload_of w prompt) = inr response ->
  400 <= status_code response < 600 ->
  body_json response = Some (JObject fields) ->
  fields !! lit "detail" = Some d ->
  events (fst (on_prompt net prompt w)) =
    events w ++
    [ChatMessageShown user (JString prompt); SpinnerShown;
     Posted (payload_of w prompt);
     (if status_code response =? 400 then WarningShown (BadRequest400 d)
      else ErrorShown
             (if status_code response =? 404 then NotFound404 d
              else if status_code response =? 500 then InternalServerError500 d
              else HTTPErrorNotice (status_code response) d));
     Rerun]
  /\ messages (session (fst (on_prompt net prompt w)))
     = messages (session w) ++ [user_message prompt].
Proof.
  intros Hnet Hstatus Hjson Hdetail.
  assert (Hout : relay_outcome (net (payload_of w prompt)) = inl (HTTPError response)).
  { rewrite Hnet. now apply relay_outcome_http_error. }
  split.
  - rewrite (on_prompt_failure_events net prompt w _ Hout).
    cbn [shown]. unfold error_detail_of. rewrite Hjson, Hdetail. cbn.
    unfold http_notice.
    repeat match goal with |- context [if ?b then _ else _] => destruct b end;
      reflexivity.
  - rewrite on_prompt_messages, Hout. now rewrite app_nil_r.
Qed.

Lemma relay_error_detail_is_shown_witness :
  events (fst (on_prompt
     (ExtraSamples.relay_error 400
        (JObject {[ lit "detail" := JString (lit "Message cannot be empty.") ]}))
     (lit " ") ShellSamples.fresh))
  = [ChatMessageShown user (JString (lit " ")); SpinnerShown;
     Posted (payload_of ShellSamples.fresh (lit " "));
     WarningShown (BadRequest400 (JString (lit "Message cannot be empty.")));
     Rerun].
Proof.
  apply (relay_error_detail_is_shown
           (ExtraSamples.relay_error 400
              (JObject {[ lit "detail" := JString (lit "Message cannot be empty.") ]}))
           (lit " ") ShellSamples.fresh
           {| status_code := 400; body_text := [];
              body_json := Some (JObject {[ lit "detail" :=
                                   JString (lit "Message cannot be empty.") ]}) |}
           {[ lit "detail" := JString (lit "Message cannot be empty.") ]}
           (JString (lit "Message cannot be empty."))).
  - reflexivity.
  - cbn. lia.
  - reflexivity.
  - vm_compute. reflexivity.
Defined.

(** An error answer whose body is not JSON is shown with the raw text
    of the body as its detail. *)
Theorem error_body_not_json_shows_raw_text net prompt w response :
  net (payload_of w prompt) = inr response ->
  400 <= status_code response < 600 ->
  body_json response = None ->
  events (fst (on_prompt net prompt w)) =
    events w ++
    [ChatMessageShown user (JString prompt); SpinnerShown;
     Posted (payload_of w prompt);
     http_notice (status_code response) (JString (body_text response));
     Rerun].
Proof.
  intros Hnet Hstatus Hjson.
  assert (Hout : relay_outcome (net (payload_of w prompt)) = inl (HTTPError response)).
  { rewrite Hnet. now apply relay_outcome_http_error. }
  rewrite (on_prompt_failure_events net prompt w _ Hout).
  cbn [shown]. unfold error_detail_of. now rewrite Hjson.
Qed.

Lemma error_body_not_json_witness :
  events (fst (on_prompt (ShellSamples.relay_status 502 "Bad Gateway")
                         (lit "Hello") ShellSamples.fresh))
  = [ChatMessageShown user (JString (lit "Hello")); SpinnerShown;
     Posted (payload_of ShellSamples.fresh (lit "Hello"));
     ErrorShown (HTTPErrorNotice 502 (JString (lit "Bad Gateway")));
     Rerun].
Proof.
  apply (error_body_not_json_shows_raw_text
           (ShellSamples.relay_status 502 "Bad Gateway")
           (lit "Hello") ShellSamples.fresh
           {| status_code := 502; body_text := lit "Bad Gateway";
              body_json := None |}).
  - reflexivity.
  - cbn. lia.
  - reflexivity.
Defined.

(** An error answer whose body is JSON but no object (a list, a string,
    a number, null) is shown as nothing at all: the [HTTPError] clause
    raises on [.get], no notice appears, and the run goes on to the rerun
    with the pending prompt kept. *)
Theorem error_body_not_an_object_shows_nothing net prompt w response j :
  net (payload_of w prompt) = inr response ->
  400 <= status_code response < 600 ->
  body_json response = Some j ->
  (forall fields, j <> JObject fields) ->
  events (fst (on_prompt net prompt w)) =
    events w ++
    [ChatMessageShown user (JString prompt); SpinnerShown;
     Posted (payload_of w prompt); Rerun]
  /\ messages (session (fst (on_prompt net prompt w)))
     = messages (session w) ++ [user_message prompt].
Proof.
  intros Hnet Hstatus Hjson Hobj.
  assert (Hout : relay_outcome (net (payload_of w prompt)) = inl (HTTPError response)).
  { rewrite Hnet. now apply relay_outcome_http_error. }
  split.
  - rewrite (on_prompt_failure_events net prompt w _ Hout).
    cbn [shown]. unfold error_detail_of. rewrite Hjson.
    destruct j; try reflexivity. now destruct (Hobj fields).
  - rewrite on_prompt_messages, Hout. now rewrite app_nil_r.
Qed.

Lemma error_body_not_an_object_witness :
  events (fst (on_prompt (ExtraSamples.relay_error 422 (JArray []))
                         (lit "Hello") ShellSamples.fresh))
  = [ChatMessageShown user (JString (lit "Hello")); SpinnerShown;
     Posted (payload_of ShellSamples.fresh (lit "Hello")); Rerun].
Proof.
  apply (error_body_not_an_object_shows_nothing
           (ExtraSamples.relay_error 422 (JArray []))
           (lit "Hello") ShellSamples.fresh
           {| status_code := 422; body_text := []; body_json := Some (JArray []) |}
           (JArray [])).
  - reflexivity.
  - cbn. lia.
  - reflexivity.
  - discriminate.
Defined.

(** Every other failure of the call shows exactly one notice between the
    post and the rerun. *)
Theorem failure_shows_one_notice net prompt w e :
  relay_outcome (net (payload_of w prompt)) = inl e ->
  e <> RerunException ->
  (forall response, e = HTTPError response -> error_detail_of response <> None) ->
  exists n,
    is_notice n = true
    /\ events (fst (on_prompt net prompt w)) =
         events w ++
         [ChatMessageShown user (JString prompt); SpinnerShown;
          Posted (payload_of w prompt); n; Rerun].
Proof.
  intros Hout Hrerun Hdetail.
  rewrite (on_prompt_failure_events net prompt w e Hout).
  pose proof (shown_are_notices e) as Hn.
  destruct e; cbn [shown] in *; try congruence;
    try (eexists; split; [|reflexivity]; reflexivity).
  specialize (Hdetail response eq_refl).
  destruct (error_detail_of response) as [d|]; [|congruence].
  apply Forall_inv in Hn. eexists. split; [exact Hn | reflexivity].
Qed.

Lemma failure_shows_one_notice_witness :
  exists n,
    is_notice n = true
    /\ events (fst (on_prompt (ShellSamples.relay_raises ConnectionError)
                              (lit "Hello") ShellSamples.fresh)) =
         events ShellSamples.fresh ++
         [ChatMessageShown user (JString (lit "Hello")); SpinnerShown;
          Posted (payload_of ShellSamples.fresh (lit "Hello")); n; Rerun].
Proof.
  apply (failure_shows_one_notice (ShellSamples.relay_raises ConnectionError)
           (lit "Hello") ShellSamples.fresh ConnectionError).
  - reflexivity.
  - discriminate.
  - discriminate.
Defined.

(** *** The reply taken from the answer *)

(** When the answer is a JSON object that has the key "ai_message", its
    value is appended as it is, whatever it is (a string, null, a number),
    for every status outside 400..599; the stand-in is not used. *)
Theorem ai_message_is_taken_as_it_is net prompt w response fields v :
  net (payload_of w prompt) = inr response ->
  ~ 400 <= status_code response < 600 ->
  body_json response = Some (JObject fields) ->
  fields !! lit "ai_message" = Some v ->
  messages (session (fst (on_prompt net prompt w)))
    = messages (session w)
        ++ [user_message prompt; {| role := assistant; content := v |}]
  /\ filter is_notice (events (fst (on_prompt net prompt w)))
     = filter is_notice (events w).
Proof.
  intros Hnet Hstatus Hjson Hkey.
  assert (Hout : relay_outcome (net (payload_of w prompt)) = inr v).
  { rewrite Hnet. unfold relay_outcome.
    replace ((400 <=? status_code response) && (status_code response <? 600))
      with false
      by (symmetry; apply andb_false_iff;
          destruct (Z.leb_spec 400 (status_code response));
          destruct (Z.ltb_spec (status_code response) 600); auto; lia).
    now rewrite Hjson, Hkey. }
  rewrite (on_prompt_success net prompt w v Hout).
  cbn [fst session messages events]. split.
  - now rewrite <- app_assoc.
  - rewrite !filter_app. cbn. now rewrite !app_nil_r.
Qed.

Lemma ai_message_is_taken_as_it_is_witness :
  messages (session (fst (on_prompt
     (ShellSamples.relay_says (JObject {[ lit "ai_message" := JNull ]}))
     (lit "Hello") ShellSamples.fresh)))
  = [user_message (lit "Hello"); {| role := assistant; content := JNull |}].
Proof.
  apply (ai_message_is_taken_as_it_is
           (ShellSamples.relay_says (JObject {[ lit "ai_message" := JNull ]}))
           (lit "Hello") ShellSamples.fresh
           {| status_code := 200; body_text := [];
              body_json := Some (JObject {[ lit "ai_message" := JNull ]}) |}
           {[ lit "ai_message" := JNull ]} JNull).
  - reflexivity.
  - cbn. lia.
  - reflexivity.
  - vm_compute. reflexivity.
Defined.

(** *** The history that is posted *)

Lemma filter_shell_roles msgs :
  Forall shell_role msgs ->
  filter (fun msg => role msg ∈ [user; assistant]) msgs = msgs.
Proof.
  induction 1 as [|m rest Hm _ IH]; [reflexivity|].
  rewrite filter_cons, IH. rewrite decide_True; [reflexivity|].
  destruct Hm as [-> | ->]; set_solver.
Qed.

Lemma reachable_shell_roles inputs :
  Forall shell_role (messages (session_after inputs)).
Proof.
  unfold session_after.
  apply (fold_run_invariant (fun s => Forall shell_role (messages s))).
  - apply run_shell_roles.
  - constructor.
Qed.



(** In a session reached by runs of the script nothing is filtered out:
    the history posted with a prompt holds the whole conversation, one
    turn per stored turn with its role and content, then the prompt. *)
Theorem posted_history_is_whole_conversation inputs evs prompt :
  chat_history (payload_of {| session := session_after inputs; events := evs |} prompt)
  = map api_turn (messages (session_after inputs))
      ++ [{| api_role := user; parts := [{| text := JString prompt |}] |}].
Proof.
  unfold payload_of. cbn [session chat_history].
  rewrite prepare_chat_history_app, prepare_chat_history_filter.
  rewrite (filter_shell_roles _ (reachable_shell_roles inputs)).
  reflexivity.
Qed.

(** *** Invariants of the conversation *)

Lemma user_is_not_assistant : user <> assistant.
Proof. discriminate. Qed.

Lemma replies_follow_prompts_user msgs m :
  replies_follow_prompts msgs -> role m = user ->
  replies_follow_prompts (msgs ++ [m]).
Proof.
  intros H Hm i x Hi Hx.
  apply lookup_app_Some in Hi as [Hi | [Hlen Hi]].
  - destruct (H i x Hi Hx) as (j & p & -> & Hj & Hp).
    exists j, p. split; [reflexivity|]. split; [|assumption].
    now apply lookup_app_l_Some.
  - apply list_lookup_singleton_Some in Hi as [_ <-].
    destruct user_is_not_assistant. congruence.
Qed.

Lemma replies_follow_prompts_reply msgs p a :
  replies_follow_prompts (msgs ++ [p]) -> role p = user ->
  replies_follow_prompts ((msgs ++ [p]) ++ [a]).
Proof.
  intros H Hp i x Hi Hx.
  apply lookup_app_Some in Hi as [Hi | [Hlen Hi]].
  - destruct (H i x Hi Hx) as (j & q & -> & Hj & Hq).
    exists j, q. split; [reflexivity|]. split; [|assumption].
    now apply lookup_app_l_Some.
  - apply list_lookup_singleton_Some in Hi as [Hi _].
    exists (length msgs), p. split; [|split; [|assumption]].
    + rewrite length_app in *. cbn in *. lia.
    + apply lookup_app_l_Some. now apply list_lookup_middle.
Qed.

Lemma run_replies_follow_prompts s inp :
  replies_follow_prompts (messages s) ->
  replies_follow_prompts (messages (run s inp)).
Proof.
  intros Hs.
  destruct (run_cases s inp) as [[_ ->] | [[_ ->] | [_ (prompt & w & <- & ->)]]].
  - intros i m Hi. discriminate.
  - assumption.
  - rewrite on_prompt_messages.
    pose proof (replies_follow_prompts_user _ (user_message prompt) Hs eq_refl) as Hu.
    destruct (relay_outcome _) as [e|ai_message].
    + now rewrite app_nil_r.
    + now apply replies_follow_prompts_reply.
Qed.

(** In every session reached by runs of the script, a turn of the relay
    comes right after a turn of the user: the conversation never starts
    with a reply and never holds two replies in a row. *)
Theorem reply_always_follows_a_prompt inputs :
  replies_follow_prompts (messages (session_after inputs)).
Proof.
  unfold session_after.
  apply (fold_run_invariant (fun s => replies_follow_prompts (messages s))).
  - apply run_replies_follow_prompts.
  - intros i m Hi. discriminate.
Qed.

(** *** The chat input is never disabled *)

Lemma reachable_not_busy inputs : thinking (session_after inputs) <> Some true.
Proof.
  unfold session_after.
  apply (fold_run_invariant (fun s => thinking s <> Some true)).
  - intros s inp Hs. destruct (run_thinking s inp) as [-> | ->];
      [assumption | discriminate].
  - discriminate.
Qed.

(** The busy flag is raised and cleared within one run, so the next run
    never finds it raised: in a session reached by runs of the script a
    prompt that is not empty is always processed, never refused by a
    disabled input. *)
Theorem prompt_is_never_refused inputs prompt net :
  truthy prompt = true ->
  script {| clear_chat := false; chat_input := Some prompt; network := net |}
         {| session := session_after inputs; events := [] |}
  = on_prompt net prompt
      {| session := session_after inputs;
         events := displayed (messages (session_after inputs)) |}.
Proof.
  intros Hprompt. rewrite script_no_clear by reflexivity.
  cbn [session events chat_input network app].
  pose proof (reachable_not_busy inputs) as Hbusy.
  destruct (thinking (session_after inputs)) as [[|]|]; cbn;
    [congruence | now rewrite Hprompt | now rewrite Hprompt].
Qed.

Lemma prompt_is_never_refused_witness :
  script (ShellSamples.submit "More" (ShellSamples.relay_raises Timeout))
         {| session := ExtraSamples.one_exchange; events := [] |}
  = on_prompt (ShellSamples.relay_raises Timeout) (lit "More")
      {| session := ExtraSamples.one_exchange;
         events := displayed (messages ExtraSamples.one_exchange) |}.
Proof.
  apply (prompt_is_never_refused
           [ShellSamples.submit "Hello"
              (ShellSamples.relay_says (ShellSamples.ai_reply "Hi there!"))]
           (lit "More") (ShellSamples.relay_raises Timeout)).
  reflexivity.
Defined.

End ShellExtras.
